(** * hackerlab: the execution pipeline of [src/renderer/utils/executor.ts]

    A shallow embedding of the executor module: the import rewriter, the
    markdown renderer, the output classifier, the orchestrator [executeCode]
    and the plain-value execution context with its message protocol,
    followed by the properties of the specification that concern them. *)

From Stdlib Require Import List NArith ZArith Lia Bool String Ascii.
From Stdlib Require Import DecimalString DecimalZ.
Import ListNotations.

Set Implicit Arguments.
Local Open Scope list_scope.

(** ** JavaScript strings

    A JavaScript string is a sequence of UTF-16 code units.  Literals of the
    source are written [js "..."]; code units that cannot stand in a Rocq
    literal (line feed, the double quote) are given by number. *)

Definition jsstring := list N.

Definition js (s : string) : jsstring :=
  map N_of_ascii (list_ascii_of_string s).

Definition LF : N := 10.
Definition DQUOTE : N := 34.
Definition SQUOTE : N := 39.

Fixpoint str_eqb (a b : jsstring) : bool :=
  match a, b with
  | [], [] => true
  | x :: a', y :: b' => N.eqb x y && str_eqb a' b'
  | _, _ => false
  end.

(** [LineTerminator] of ECMAScript: LF, CR, LS, PS. *)
Definition isLineTerminator (c : N) : bool :=
  (N.eqb c 10 || N.eqb c 13 || N.eqb c 8232 || N.eqb c 8233)%bool.

(** [WhiteSpace] and [LineTerminator] of ECMAScript: what [\s] matches and
    what [String.prototype.trim] strips. *)
Definition isWhiteSpace (c : N) : bool :=
  (N.eqb c 9 || N.eqb c 11 || N.eqb c 12 || N.eqb c 32 || N.eqb c 160
   || N.eqb c 5760 || (N.leb 8192 c && N.leb c 8202) || N.eqb c 8239
   || N.eqb c 8287 || N.eqb c 12288 || N.eqb c 65279
   || isLineTerminator c)%bool.

(** [\w]: ASCII letters, digits and the underscore. *)
Definition isWordChar (c : N) : bool :=
  ((N.leb 48 c && N.leb c 57) || (N.leb 65 c && N.leb c 90)
   || (N.leb 97 c && N.leb c 122) || N.eqb c 95)%bool.

(** [.] without the [s] flag: anything but a line terminator. *)
Definition isDot (c : N) : bool := negb (isLineTerminator c).

Definition isChar (d : N) (c : N) : bool := N.eqb c d.
Definition isQuote (c : N) : bool := (N.eqb c SQUOTE || N.eqb c DQUOTE)%bool.
Definition anyChar (_ : N) : bool := true.

(** [String.prototype.startsWith]. *)
Fixpoint startsWith (s p : jsstring) : bool :=
  match p with
  | [] => true
  | y :: p' =>
      match s with
      | [] => false
      | x :: s' => N.eqb x y && startsWith s' p'
      end
  end.

(** [String.prototype.includes]. *)
Fixpoint includes (s p : jsstring) : bool :=
  (startsWith s p ||
   match s with
   | [] => false
   | _ :: s' => includes s' p
   end)%bool.

Fixpoint dropWhile (p : N -> bool) (s : jsstring) : jsstring :=
  match s with
  | [] => []
  | x :: s' => if p x then dropWhile p s' else s
  end.

(** [String.prototype.trim]. *)
Definition trimStart (s : jsstring) : jsstring := dropWhile isWhiteSpace s.
Definition trimEnd (s : jsstring) : jsstring :=
  rev (dropWhile isWhiteSpace (rev s)).
Definition trim (s : jsstring) : jsstring := trimEnd (trimStart s).

(** [Array.prototype.join] on an array of strings. *)
Fixpoint join (sep : jsstring) (l : list jsstring) : jsstring :=
  match l with
  | [] => []
  | [a] => a
  | a :: l' => a ++ sep ++ join sep l'
  end.

(** ** Regular expressions

    The backtracking matcher of ECMAScript, for the fragment the module's
    patterns are written in: literals, character classes, the anchors [^]
    and [$] of the [m] flag, capture groups, [?], and the greedy and lazy
    repetition of a character class ([x*], [x*?]; [x+] is [x x*]).  The
    matcher is written in continuation-passing style: a pattern consumes a
    prefix of the input and hands the rest to its continuation, and the
    first continuation that succeeds decides the match, which is the order
    in which a backtracking engine explores alternatives. *)

Inductive regex : Type :=
| Eps : regex
| Lit : jsstring -> regex
| Class : (N -> bool) -> regex
| Seq : regex -> regex -> regex
| Star : bool -> (N -> bool) -> regex     (* [true]: greedy *)
| Opt : regex -> regex
| Group : nat -> regex -> regex
| Bol : regex
| Eol : regex.

Definition Plus (greedy : bool) (p : N -> bool) : regex :=
  Seq (Class p) (Star greedy p).

Definition captures := nat -> option jsstring.
Definition noCaptures : captures := fun _ => None.
Definition setCapture (i : nat) (v : jsstring) (c : captures) : captures :=
  fun j => if Nat.eqb j i then Some v else c j.

(** The state of a match in progress: the code unit before the current
    position (for [^]), the input still to read, and the captures. *)
Definition matchResult := (jsstring * captures)%type.
Definition cont := option N -> jsstring -> captures -> option matchResult.

Definition orElse {A} (a b : option A) : option A :=
  match a with
  | Some _ => a
  | None => b
  end.

(** The part of [s] consumed when [rest] is what remains of it. *)
Definition consumed (s rest : jsstring) : jsstring :=
  firstn (List.length s - List.length rest) s.

Fixpoint matchLit (l : jsstring) (prev : option N) (s : jsstring)
  : option (option N * jsstring) :=
  match l with
  | [] => Some (prev, s)
  | y :: l' =>
      match s with
      | [] => None
      | x :: s' => if N.eqb x y then matchLit l' (Some x) s' else None
      end
  end.

Fixpoint star (greedy : bool) (p : N -> bool) (k : cont)
    (prev : option N) (s : jsstring) (c : captures) {struct s}
  : option matchResult :=
  match s with
  | [] => k prev s c
  | x :: s' =>
      if p x then
        if greedy
        then orElse (star greedy p k (Some x) s' c) (k prev s c)
        else orElse (k prev s c) (star greedy p k (Some x) s' c)
      else k prev s c
  end.

Definition atLineStart (prev : option N) : bool :=
  match prev with
  | None => true
  | Some c => isLineTerminator c
  end.

Definition atLineEnd (s : jsstring) : bool :=
  match s with
  | [] => true
  | c :: _ => isLineTerminator c
  end.

Fixpoint rmatch (r : regex) (k : cont) (prev : option N) (s : jsstring)
    (c : captures) {struct r} : option matchResult :=
  match r with
  | Eps => k prev s c
  | Lit l =>
      match matchLit l prev s with
      | Some (prev', s') => k prev' s' c
      | None => None
      end
  | Class p =>
      match s with
      | x :: s' => if p x then k (Some x) s' c else None
      | [] => None
      end
  | Seq r1 r2 => rmatch r1 (fun pv s' c' => rmatch r2 k pv s' c') prev s c
  | Star g p => star g p k prev s c
  | Opt r1 => orElse (rmatch r1 k prev s c) (k prev s c)
  | Group i r1 =>
      rmatch r1 (fun pv s' c' => k pv s' (setCapture i (consumed s s') c'))
        prev s c
  | Bol => if atLineStart prev then k prev s c else None
  | Eol => if atLineEnd s then k prev s c else None
  end.

(** One match attempt at the current position ([RegExpBuiltinExec] at a
    fixed [lastIndex]). *)
Definition exec (r : regex) (prev : option N) (s : jsstring)
  : option matchResult :=
  rmatch r (fun _ rest c => Some (rest, c)) prev s noCaptures.

(** [String.prototype.replace] with a global pattern: matches are sought
    from left to right, each one is replaced by what [f] makes of the
    matched text and its captures, and the search resumes after the match
    (one code unit further after an empty match).  [skip] counts the code
    units of the current match that are still to be passed over. *)
Fixpoint replaceFrom (r : regex) (f : jsstring -> captures -> jsstring)
    (prev : option N) (skip : nat) (s : jsstring) {struct s} : jsstring :=
  match skip with
  | S n =>
      match s with
      | [] => []
      | x :: s' => replaceFrom r f (Some x) n s'
      end
  | O =>
      match exec r prev s with
      | Some (rest, caps) =>
          f (consumed s rest) caps ++
          match s with
          | [] => []
          | x :: s' =>
              match List.length s - List.length rest with
              | O => x :: replaceFrom r f (Some x) 0 s'
              | S n => replaceFrom r f (Some x) n s'
              end
          end
      | None =>
          match s with
          | [] => []
          | x :: s' => x :: replaceFrom r f (Some x) 0 s'
          end
      end
  end.

Definition replaceAll (r : regex) (f : jsstring -> captures -> jsstring)
    (s : jsstring) : jsstring :=
  replaceFrom r f None 0 s.

(** Replacement strings: literal text and the group references [$n]; a
    group that took no part in the match stands for the empty string. *)
Inductive piece : Type :=
| Text : jsstring -> piece
| Ref : nat -> piece.

Definition group (c : captures) (i : nat) : jsstring :=
  match c i with
  | Some v => v
  | None => []
  end.

Definition substitute (t : list piece) (_ : jsstring) (c : captures)
  : jsstring :=
  flat_map (fun p => match p with Text s => s | Ref i => group c i end) t.

(** ** The import rewriter *)

Definition notQuote (c : N) : bool := negb (isQuote c).
Definition bareFirst (c : N) : bool :=
  negb (isQuote c || N.eqb c 46 || N.eqb c 47).

(** [/import\s+(.+?)\s+from\s+Q(S)Q/g], where [Q] stands for the class of
    the single and the double quote and [S], the specifier, for one code
    unit that is neither a quote, a dot nor a slash, followed by a greedy
    run of code units that are not quotes. *)
Definition importPattern : regex :=
  Seq (Lit (js "import"))
  (Seq (Plus true isWhiteSpace)
  (Seq (Group 1 (Plus false isDot))
  (Seq (Plus true isWhiteSpace)
  (Seq (Lit (js "from"))
  (Seq (Plus true isWhiteSpace)
  (Seq (Class isQuote)
  (Seq (Group 2 (Seq (Class bareFirst) (Star true notQuote)))
       (Class isQuote)))))))).

Definition esmHost : jsstring := js "https://esm.sh/".

(** The replacement callback of [transformImports]. *)
Definition rewriteImport (matched : jsstring) (c : captures) : jsstring :=
  let imports := group c 1 in
  let pkg := group c 2 in
  if startsWith pkg (js "http") then matched
  else js "import " ++ imports ++ js " from '" ++ esmHost ++ pkg ++ js "'".

Definition transformImports (code : jsstring) : jsstring :=
  replaceAll importPattern rewriteImport code.

(** ** The markdown renderer *)

Definition pattern_amp : regex := Class (isChar 38).
Definition pattern_lt : regex := Class (isChar 60).
Definition pattern_gt : regex := Class (isChar 62).

(** [/^### (.*$)/gim], [/^## (.*$)/gim], [/^# (.*$)/gim]: the [i] flag has
    nothing to act on in these patterns. *)
Definition pattern_heading (marks : jsstring) : regex :=
  Seq Bol (Seq (Lit marks) (Group 1 (Seq (Star true isDot) Eol))).

(** [/\*\*\*(.*?)\*\*\*/g], [/\*\*(.*?)\*\*/g], [/\*(.*?)\*/g] *)
Definition pattern_emphasis (stars : jsstring) : regex :=
  Seq (Lit stars) (Seq (Group 1 (Star false isDot)) (Lit stars)).

(** [/```(\w+)?\n([\s\S]*?)```/g] *)
Definition pattern_fence : regex :=
  Seq (Lit (js "```"))
  (Seq (Opt (Group 1 (Plus true isWordChar)))
  (Seq (Lit [LF])
  (Seq (Group 2 (Star false anyChar)) (Lit (js "```"))))).

(** [/`([^`]+)`/g] *)
Definition pattern_code : regex :=
  Seq (Lit (js "`"))
  (Seq (Group 1 (Plus true (fun c => negb (N.eqb c 96)))) (Lit (js "`"))).

(** [/\[([^\]]+)\]\(([^)]+)\)/g] *)
Definition pattern_link : regex :=
  Seq (Lit (js "["))
  (Seq (Group 1 (Plus true (fun c => negb (N.eqb c 93))))
  (Seq (Lit (js "]("))
  (Seq (Group 2 (Plus true (fun c => negb (N.eqb c 41)))) (Lit (js ")"))))).

Definition pattern_paragraph : regex := Lit [LF; LF].
Definition pattern_break : regex := Lit [LF].

Definition tagged (open close : jsstring) : list piece :=
  [Text open; Ref 1; Text close].

(** [markdownToHtml]: the chain of [replace] calls, the first one applied
    being the innermost, and the paragraph tags around the result. *)
Definition markdownToHtml (markdown : jsstring) : jsstring :=
  let html :=
    replaceAll pattern_break (substitute [Text (js "<br>")])
    (replaceAll pattern_paragraph (substitute [Text (js "</p><p>")])
    (replaceAll pattern_link
       (substitute [Text (js "<a href=" ++ [DQUOTE]); Ref 2;
                    Text ([DQUOTE] ++ js ">"); Ref 1; Text (js "</a>")])
    (replaceAll pattern_code
       (substitute (tagged (js "<code>") (js "</code>")))
    (replaceAll pattern_fence
       (substitute [Text (js "<pre><code>"); Ref 2;
                    Text (js "</code></pre>")])
    (replaceAll (pattern_emphasis (js "*"))
       (substitute (tagged (js "<em>") (js "</em>")))
    (replaceAll (pattern_emphasis (js "**"))
       (substitute (tagged (js "<strong>") (js "</strong>")))
    (replaceAll (pattern_emphasis (js "***"))
       (substitute (tagged (js "<strong><em>") (js "</em></strong>")))
    (replaceAll (pattern_heading (js "# "))
       (substitute (tagged (js "<h1>") (js "</h1>")))
    (replaceAll (pattern_heading (js "## "))
       (substitute (tagged (js "<h2>") (js "</h2>")))
    (replaceAll (pattern_heading (js "### "))
       (substitute (tagged (js "<h3>") (js "</h3>")))
    (replaceAll pattern_gt (substitute [Text (js "&gt;")])
    (replaceAll pattern_lt (substitute [Text (js "&lt;")])
    (replaceAll pattern_amp (substitute [Text (js "&amp;")])
       markdown)))))))))))))
  in
  js "<p>" ++ html ++ js "</p>".

(** [createHtmlPreview]: the document shell around the rendered markup. *)
Definition previewHead : jsstring := js "
    <!DOCTYPE html>
    <html>
    <head>
      <style>
        * { margin: 0; padding: 0; box-sizing: border-box; }
        body {
          font-family: -apple-system, BlinkMacSystemFont, 'Segoe UI', Roboto, sans-serif;
          padding: 16px;
          line-height: 1.6;
          color: #1a1a1a;
        }
        h1, h2, h3 { margin: 1em 0 0.5em; }
        h1 { font-size: 1.5em; }
        h2 { font-size: 1.25em; }
        h3 { font-size: 1.1em; }
        p { margin: 0.5em 0; }
        code { background: #f0f0f0; padding: 0.2em 0.4em; border-radius: 3px; font-size: 0.9em; }
        pre { background: #f0f0f0; padding: 1em; border-radius: 4px; overflow-x: auto; margin: 1em 0; }
        pre code { background: none; padding: 0; }
        a { color: #0066cc; }
      </style>
    </head>
    <body>".

Definition previewTail : jsstring := js "</body>
    </html>
  ".

Definition createHtmlPreview (html : jsstring) : jsstring :=
  previewHead ++ html ++ previewTail.

(** ** Values and the output classifier

    A value is represented by what the module observes of it.  Of an object
    (anything non-null whose [typeof] is [object]) that is the outcome of
    [JSON.stringify(v, null, 2)], [None] when it throws, and the string
    [String(v)]; of any other non-string value (a number, a boolean, a
    bigint, a function) it is [String(v)]. *)

Inductive Value : Type :=
| VUndefined : Value
| VNull : Value
| VString : jsstring -> Value
| VObject : option jsstring -> jsstring -> Value
| VOther : jsstring -> Value.

(** [String(v)]. *)
Definition toStr (v : Value) : jsstring :=
  match v with
  | VUndefined => js "undefined"
  | VNull => js "null"
  | VString s => s
  | VObject _ str => str
  | VOther str => str
  end.

(** The callback that [formatValue] maps over its arguments. *)
Definition formatArg (arg : Value) : jsstring :=
  match arg with
  | VNull => js "null"
  | VUndefined => js "undefined"
  | VString s => s
  | VObject (Some json) _ => json
  | VObject None str => str
  | VOther str => str
  end.

Definition formatValue (args : list Value) : jsstring :=
  join (js " ") (map formatArg args).

(** What a [catch] clause receives: an [Error] with its message, or any
    other value. *)
Inductive Thrown : Type :=
| ThrownError : jsstring -> Thrown
| ThrownValue : Value -> Thrown.

Record OutputItem : Type := mkOutput {
  item_id : jsstring;
  item_type : jsstring;
  content : jsstring;
  timestamp : Z
}.

(** ** The renderer process

    [Env] is what the platform answers: the [n]-th value drawn from it is
    the answer to the [n]-th call of [crypto.randomUUID], [Date.now] or
    [URL.createObjectURL] made by the module.  [reactDocument] is the
    document that [executeReactCode] builds around the transpiled code. *)

Record Env : Type := mkEnv {
  randomUUID : nat -> jsstring;
  Date_now : nat -> Z;
  blobPath : nat -> jsstring;
  reactDocument : jsstring -> jsstring
}.

Inductive Loader : Type := LoaderTsx | LoaderTs | LoaderJs.

(** The calls the orchestrator makes outside itself. *)
Inductive Call : Type :=
| CallInitialize : Call
| CallTransform : jsstring -> Loader -> Call
| CallExecuteReact : jsstring -> Call
| CallExecutePlain : jsstring -> Call.

(** The module-level variables ([esbuildInitialized], [esbuildInitError],
    [executionCounter]), the number of answers drawn from the platform, the
    items handed to [onOutput] so far and the calls made so far, both in
    order.  The cached initialization error is an [Error]; it is kept by
    its message. *)
Record Host : Type := mkHost {
  esbuildInitialized : bool;
  esbuildInitError : option jsstring;
  executionCounter : Z;
  tick : nat;
  emitted : list OutputItem;
  calls : list Call
}.

Definition M (A : Type) : Type := Host -> A * Host.
Definition ret {A} (a : A) : M A := fun h => (a, h).
Definition bind {A B} (m : M A) (k : A -> M B) : M B :=
  fun h => let (a, h') := m h in k a h'.

Notation "x <- m ;; k" := (bind m (fun x => k))
  (at level 61, m at next level, right associativity).
Notation "m ;;; k" := (bind m (fun _ => k))
  (at level 61, right associativity).

(** One answer of the platform. *)
Definition draw {A} (f : nat -> A) : M A :=
  fun h =>
    (f (tick h),
     mkHost (esbuildInitialized h) (esbuildInitError h) (executionCounter h)
            (S (tick h)) (emitted h) (calls h)).

Definition logCall (c : Call) : M unit :=
  fun h =>
    (tt,
     mkHost (esbuildInitialized h) (esbuildInitError h) (executionCounter h)
            (tick h) (emitted h) (calls h ++ [c])).

(** The caller's [onOutput]: the item joins the output of the invocation. *)
Definition onOutput (o : OutputItem) : M unit :=
  fun h =>
    (tt,
     mkHost (esbuildInitialized h) (esbuildInitError h) (executionCounter h)
            (tick h) (emitted h ++ [o]) (calls h)).

Definition setInitialized : M unit :=
  fun h =>
    (tt,
     mkHost true (esbuildInitError h) (executionCounter h)
            (tick h) (emitted h) (calls h)).

Definition setInitError (e : jsstring) : M unit :=
  fun h =>
    (tt,
     mkHost (esbuildInitialized h) (Some e) (executionCounter h)
            (tick h) (emitted h) (calls h)).

Section Executor.

Variable env : Env.

Definition createOutput (type content : jsstring) : M OutputItem :=
  id <- draw (randomUUID env) ;;
  now <- draw (Date_now env) ;;
  ret (mkOutput id type content now).

Definition emit (type content : jsstring) : M unit :=
  o <- createOutput type content ;; onOutput o.

(** *** The transpiler adapter *)

Definition alreadyInitialized : jsstring :=
  js "Cannot call " ++ [DQUOTE] ++ js "initialize" ++ [DQUOTE]
     ++ js " more than once".

(** [initEsbuild] runs in two steps, before and after its [await].  The
    first step returns, throws the cached error, or calls
    [esbuild.initialize] and waits. *)
Inductive InitStep : Type :=
| InitReturned : InitStep
| InitThrew : Thrown -> InitStep
| InitCalled : InitStep.

Definition initEsbuildBegin : M InitStep :=
  fun h =>
    if esbuildInitialized h then ret InitReturned h
    else
      match esbuildInitError h with
      | Some e => ret (InitThrew (ThrownError e)) h
      | None => (logCall CallInitialize ;;; ret InitCalled) h
      end.

(** The second step, when [esbuild.initialize] has settled with [outcome]
    ([None]: it succeeded).  The result is what [initEsbuild] throws,
    [None] when it returns. *)
Definition initEsbuildSettle (outcome : option Thrown) : M (option Thrown) :=
  match outcome with
  | None => setInitialized ;;; ret None
  | Some error =>
      match error with
      | ThrownError m =>
          if includes m alreadyInitialized
          then setInitialized ;;; ret None
          else setInitError m ;;; ret (Some (ThrownError m))
      | ThrownValue v =>
          setInitError (toStr v) ;;;
          ret (Some (ThrownError (toStr v)))
      end
  end.

(** [initEsbuild] when nothing else runs while it waits. *)
Definition initEsbuild (outcome : option Thrown) : M (option Thrown) :=
  st <- initEsbuildBegin ;;
  match st with
  | InitReturned => ret None
  | InitThrew e => ret (Some e)
  | InitCalled => initEsbuildSettle outcome
  end.

(** What [esbuild] answers during one invocation: the outcome of
    [initialize] ([None]: success) and, for [transform], the transpiled
    code or the value the call fails with. *)
Record Esbuild : Type := mkEsbuild {
  initialize : option Thrown;
  transform : jsstring -> Loader -> Thrown + jsstring
}.

(** *** Execution identifiers *)

(** [String(n)] for an integer [n] of magnitude below [10^21]. *)
Definition numberToString (n : Z) : jsstring :=
  js (NilZero.string_of_int (Z.to_int n)).

(** [++n] on a Number that holds a natural number: exact below [2^53], and
    [2^53 + 1] rounds back to [2^53]. *)
Definition increment (n : Z) : Z :=
  if Z.ltb n (2 ^ 53) then n + 1 else n.

Definition executionId (now counter : Z) : jsstring :=
  js "exec_" ++ numberToString now ++ js "_" ++ numberToString counter.

Definition getExecutionId : M jsstring :=
  now <- draw (Date_now env) ;;
  fun h =>
    let n := increment (executionCounter h) in
    (executionId now n,
     mkHost (esbuildInitialized h) (esbuildInitError h) n
            (tick h) (emitted h) (calls h)).

(** *** The plain-value execution context *)

Inductive Effect : Type :=
| SetTimeout : Effect
| AddListener : Effect
| CreateObjectURL : jsstring -> Effect
| AppendIframe : Effect
| ClearTimeout : Effect
| RemoveListener : Effect
| RemoveIframe : Effect
| RevokeObjectURL : jsstring -> Effect
| Resolve : Effect.

(** The variables of one call of [executePlainCode] ([execId], [resolved],
    [blobUrl]), what the browser holds for it (whether [handleMessage] is
    registered, whether the timer is pending, whether the iframe is in the
    document) and what the call has done so far, in order. *)
Record Plain : Type := mkPlain {
  execId : jsstring;
  resolved : bool;
  blobUrl : option jsstring;
  listening : bool;
  timerPending : bool;
  iframeAttached : bool;
  effects : list Effect
}.

Definition cleanup (p : Plain) : Plain :=
  if resolved p then p
  else
    let e1 := effects p ++ [RemoveListener] in
    let e2 := if iframeAttached p then e1 ++ [RemoveIframe] else e1 in
    let e3 := match blobUrl p with
              | Some (c :: u) => e2 ++ [RevokeObjectURL (c :: u)]
              | _ => e2
              end in
    mkPlain (execId p) true (blobUrl p) false (timerPending p) false
            (e3 ++ [Resolve]).

(** The protocol messages, and anything else a [message] event may carry
    under a [type] the handler does not know. *)
Inductive Payload : Type :=
| Console : jsstring -> list Value -> Payload
| ErrorMessage : jsstring -> Payload
| Result : Value -> Payload
| Done : Payload
| Unknown : Payload.

Record Message : Type := mkMessage {
  msgExecId : jsstring;
  payload : Payload
}.

Definition clearTimeout (p : Plain) : Plain :=
  mkPlain (execId p) (resolved p) (blobUrl p) (listening p) false
          (iframeAttached p) (effects p ++ [ClearTimeout]).

(** [handleMessage]; [None] is an event whose [data] is falsy. *)
Definition handleMessage (p : Plain) (data : option Message) : M Plain :=
  match data with
  | None => ret p
  | Some m =>
      if negb (str_eqb (msgExecId m) (execId p)) then ret p
      else
        match payload m with
        | Console method args =>
            emit method (formatValue args) ;;; ret p
        | ErrorMessage message =>
            emit (js "error") message ;;; ret p
        | Result value =>
            match value with
            | VUndefined => ret p
            | _ => emit (js "result") (formatValue [value]) ;;; ret p
            end
        | Done => ret (cleanup (clearTimeout p))
        | Unknown => ret p
        end
  end.

(** The callback given to [setTimeout]. *)
Definition onTimeout (p : Plain) : M Plain :=
  emit (js "error") (js "Execution timed out (10s)") ;;;
  ret (cleanup p).

Definition executePlainCode (code : jsstring) : M Plain :=
  logCall (CallExecutePlain code) ;;;
  id <- getExecutionId ;;
  path <- draw (blobPath env) ;;
  let url := js "blob:" ++ path in
  ret (mkPlain id false (Some url) true true true
         [SetTimeout; AddListener; CreateObjectURL url; AppendIframe]).

(** What the browser does with the context: a [message] event reaches
    [handleMessage] while it is registered, and the timer fires once, when
    the 10 seconds have passed, unless it was cleared. *)
Inductive Event : Type :=
| Posted : option Message -> Event
| BudgetElapsed : Event.

Definition fired (p : Plain) : Plain :=
  mkPlain (execId p) (resolved p) (blobUrl p) (listening p) false
          (iframeAttached p) (effects p).

Definition dispatch (p : Plain) (ev : Event) : M Plain :=
  match ev with
  | Posted data => if listening p then handleMessage p data else ret p
  | BudgetElapsed => if timerPending p then onTimeout (fired p) else ret p
  end.

Fixpoint dispatchAll (p : Plain) (evs : list Event) : M Plain :=
  match evs with
  | [] => ret p
  | ev :: evs' => p' <- dispatch p ev ;; dispatchAll p' evs'
  end.

(** *** The rendering path *)

Definition executeReactCode (code : jsstring) : M unit :=
  logCall (CallExecuteReact code) ;;;
  emit (js "react") (reactDocument env code).

(** *** The orchestrator *)

(** How the promise of [executeCode] stands when the function has run as
    far as it can without the execution context: fulfilled, or waiting for
    the promise of [executePlainCode]. *)
Inductive Status : Type :=
| Fulfilled : Status
| Awaiting : Plain -> Status.

Definition isJsx (type : jsstring) : bool :=
  (str_eqb type (js "tsx") || str_eqb type (js "jsx"))%bool.

Definition loaderOf (type : jsstring) : Loader :=
  if isJsx type then LoaderTsx
  else if str_eqb type (js "typescript") then LoaderTs else LoaderJs.

Definition hasReactComponent (code type : jsstring) : bool :=
  (isJsx type &&
   (includes code (js "<") || includes code (js "export default")
    || includes code (js "export function")))%bool.

Definition isEmpty (s : jsstring) : bool :=
  match s with
  | [] => true
  | _ => false
  end.

Definition executeCode (esbuild : Esbuild) (code type : jsstring)
  : M Status :=
  if isEmpty (trim code) then ret Fulfilled
  else if str_eqb type (js "markdown") then
    emit (js "react") (createHtmlPreview (markdownToHtml code)) ;;;
    ret Fulfilled
  else
    failure <- initEsbuild (initialize esbuild) ;;
    match failure with
    | Some error =>
        emit (js "error")
             (js "Failed to initialize transpiler: " ++
              match error with
              | ThrownError m => m
              | ThrownValue v => toStr v
              end) ;;;
        ret Fulfilled
    | None =>
        let codeWithImports := transformImports code in
        let loader := loaderOf type in
        logCall (CallTransform codeWithImports loader) ;;;
        match transform esbuild codeWithImports loader with
        | inl error =>
            match error with
            | ThrownError m =>
                emit (js "error") (js "Transpilation error: " ++ m)
            | ThrownValue _ => ret tt
            end ;;;
            ret Fulfilled
        | inr transpiledCode =>
            if hasReactComponent code type
            then executeReactCode transpiledCode ;;; ret Fulfilled
            else p <- executePlainCode transpiledCode ;; ret (Awaiting p)
        end
    end.

End Executor.

(** ** Vocabulary of the properties *)

(** *** Items and values *)

(** Kind and content of the items, in order. *)
Definition shown (l : list OutputItem) : list (jsstring * jsstring) :=
  map (fun o => (item_type o, content o)) l.


(** *** The plain-value execution context *)

(** The cleanup actions among the effects of a context, in order. *)
Definition isCleanupAction (e : Effect) : bool :=
  match e with
  | RemoveListener | RemoveIframe | RevokeObjectURL _ | Resolve => true
  | _ => false
  end.

Definition cleanupActions (p : Plain) : list Effect :=
  filter isCleanupAction (effects p).

(** The cleanup actions of a context, in the order of [cleanup]. *)
Definition fullCleanup (url : jsstring) : list Effect :=
  [RemoveListener; RemoveIframe; RevokeObjectURL url; Resolve].

(** The two closures that [executePlainCode] hands to the browser, called
    in any order and any number of times, whatever the browser's own
    bookkeeping of listeners and timers would allow. *)
Inductive Callback : Type :=
| OnMessage : option Message -> Callback
| OnTimer : Callback.

Definition invoke (env : Env) (p : Plain) (cb : Callback) : M Plain :=
  match cb with
  | OnMessage data => handleMessage env p data
  | OnTimer => onTimeout env p
  end.

Fixpoint invokeAll (env : Env) (p : Plain) (cbs : list Callback) : M Plain :=
  match cbs with
  | [] => ret p
  | cb :: cbs' => p' <- invoke env p cb ;; invokeAll env p' cbs'
  end.

(** A [done] message of the context [id]. *)
Definition isDoneFor (id : jsstring) (data : option Message) : bool :=
  match data with
  | Some m =>
      (str_eqb (msgExecId m) id &&
       match payload m with Done => true | _ => false end)%bool
  | None => false
  end.

Definition endsRun (id : jsstring) (cb : Callback) : bool :=
  match cb with
  | OnMessage data => isDoneFor id data
  | OnTimer => true
  end.

Definition endsContext (id : jsstring) (ev : Event) : bool :=
  match ev with
  | Posted data => isDoneFor id data
  | BudgetElapsed => true
  end.

(** What holds of a context between two callbacks: as long as it is not
    resolved, the iframe is in the document and no cleanup action has been
    performed; once it is resolved, each has been performed once. *)
Definition contextInv (url : jsstring) (p : Plain) : Prop :=
  blobUrl p = Some url /\ url <> [] /\
  if resolved p
  then cleanupActions p = fullCleanup url
  else cleanupActions p = [] /\ iframeAttached p = true.

(** The same with the browser's bookkeeping: the listener and the timer
    are there exactly as long as the context is not resolved. *)
Definition browserInv (url : jsstring) (p : Plain) : Prop :=
  contextInv url p /\
  listening p = negb (resolved p) /\ timerPending p = negb (resolved p).

(** *** The orchestrator *)

(** The state of the module when it has just been loaded. *)
Definition freshHost : Host := mkHost false None 0 0 [] [].

(** The module-level variables of the host. *)
Definition moduleState (h : Host) : bool * option jsstring * Z :=
  (esbuildInitialized h, esbuildInitError h, executionCounter h).

(** The executions among the calls of the orchestrator. *)
Definition isExecution (c : Call) : bool :=
  match c with
  | CallExecuteReact _ | CallExecutePlain _ => true
  | _ => false
  end.

Definition executions (h : Host) : list Call := filter isExecution (calls h).

(** Whether [initEsbuild] takes an outcome of [esbuild.initialize] for a
    success, and the message of the [Error] it caches otherwise. *)
Definition initSucceeds (outcome : option Thrown) : bool :=
  match outcome with
  | None => true
  | Some (ThrownError m) => includes m alreadyInitialized
  | Some (ThrownValue _) => false
  end.

Definition thrownMessage (error : Thrown) : jsstring :=
  match error with
  | ThrownError m => m
  | ThrownValue v => toStr v
  end.

Definition initMessage (outcome : option Thrown) : jsstring :=
  match outcome with
  | Some error => thrownMessage error
  | None => []
  end.

(** The adapter's initialization has failed: the error is cached and the
    adapter is not marked initialized. *)
Definition initFailed (message : jsstring) (h : Host) : Prop :=
  esbuildInitialized h = false /\ esbuildInitError h = Some message.

(** The part of [executeCode] that follows a successful [initEsbuild]:
    import rewriting, transpilation and execution. *)
Definition afterInit (env : Env) (esbuild : Esbuild) (code type : jsstring)
  : M Status :=
  logCall (CallTransform (transformImports code) (loaderOf type)) ;;;
  match transform esbuild (transformImports code) (loaderOf type) with
  | inl error =>
      match error with
      | ThrownError m => emit env (js "error") (js "Transpilation error: " ++ m)
      | ThrownValue _ => ret tt
      end ;;;
      ret Fulfilled
  | inr transpiledCode =>
      if hasReactComponent code type
      then executeReactCode env transpiledCode ;;; ret Fulfilled
      else p <- executePlainCode env transpiledCode ;; ret (Awaiting p)
  end.

(** *** The process

    One renderer process: the host and the plain-value contexts started so
    far, oldest first.  An invocation runs [executeCode] as far as it goes
    without its context, with nothing else running while it waits for
    [esbuild]; a [message] event of the window is offered to the listener
    of every context, in the order of registration; a timer belongs to one
    context. *)

Record Invocation : Type := mkInvocation {
  answers : Esbuild;
  source : jsstring;
  variant : jsstring
}.

Record System : Type := mkSystem {
  host : Host;
  contexts : list Plain
}.

Inductive Action : Type :=
| Run : Invocation -> Action
| WindowMessage : option Message -> Action
| TimerOf : nat -> Action.

Fixpoint deliver (env : Env) (data : option Message) (ps : list Plain)
  : M (list Plain) :=
  match ps with
  | [] => ret []
  | p :: ps' =>
      p' <- dispatch env p (Posted data) ;;
      rest <- deliver env data ps' ;;
      ret (p' :: rest)
  end.

Fixpoint fireTimer (env : Env) (n : nat) (ps : list Plain) {struct ps}
  : M (list Plain) :=
  match ps with
  | [] => ret []
  | p :: ps' =>
      match n with
      | O => p' <- dispatch env p BudgetElapsed ;; ret (p' :: ps')
      | S n' => rest <- fireTimer env n' ps' ;; ret (p :: rest)
      end
  end.

Definition step (env : Env) (sys : System) (a : Action) : System :=
  match a with
  | Run inv =>
      let (st, h) :=
        executeCode env (answers inv) (source inv) (variant inv) (host sys) in
      mkSystem h
        (contexts sys ++
         match st with
         | Awaiting p => [p]
         | Fulfilled => []
         end)
  | WindowMessage data =>
      let (ps, h) := deliver env data (contexts sys) (host sys) in
      mkSystem h ps
  | TimerOf n =>
      let (ps, h) := fireTimer env n (contexts sys) (host sys) in
      mkSystem h ps
  end.

Fixpoint process (env : Env) (sys : System) (acts : list Action) : System :=
  match acts with
  | [] => sys
  | a :: acts' => process env (step env sys a) acts'
  end.

Definition freshSystem : System := mkSystem freshHost [].

Definition isRun (a : Action) : bool :=
  match a with
  | Run _ => true
  | _ => false
  end.

(** The number of invocations among the actions of a process. *)
Definition invocations (acts : list Action) : nat :=
  List.length (filter isRun acts).

(** The code units of a decimal numeral. *)
Definition isDigitOrMinus (c : N) : bool :=
  ((N.leb 48 c && N.leb c 57) || N.eqb c 45)%bool.

(** What holds of a process at every moment: the counter is a natural
    number, and the contexts bear distinct identifiers, each made from a
    value the counter has already passed. *)
Definition processInv (sys : System) : Prop :=
  (0 <= executionCounter (host sys))%Z
  /\ NoDup (map execId (contexts sys))
  /\ forall id, In id (map execId (contexts sys)) ->
       exists now k, id = executionId now k
                     /\ (0 < k <= executionCounter (host sys))%Z.

(** *** The markdown renderer *)

(** The three entity substitutions that open [markdownToHtml]. *)
Definition escapeHtml (s : jsstring) : jsstring :=
  replaceAll pattern_gt (substitute [Text (js "&gt;")])
    (replaceAll pattern_lt (substitute [Text (js "&lt;")])
       (replaceAll pattern_amp (substitute [Text (js "&amp;")]) s)).

(** The structural substitutions that follow, in the order of the source
    (the first one applied is the innermost). *)
Definition structure (s : jsstring) : jsstring :=
  replaceAll pattern_break (substitute [Text (js "<br>")])
  (replaceAll pattern_paragraph (substitute [Text (js "</p><p>")])
  (replaceAll pattern_link
     (substitute [Text (js "<a href=" ++ [DQUOTE]); Ref 2;
                  Text ([DQUOTE] ++ js ">"); Ref 1; Text (js "</a>")])
  (replaceAll pattern_code (substitute (tagged (js "<code>") (js "</code>")))
  (replaceAll pattern_fence
     (substitute [Text (js "<pre><code>"); Ref 2; Text (js "</code></pre>")])
  (replaceAll (pattern_emphasis (js "*"))
     (substitute (tagged (js "<em>") (js "</em>")))
  (replaceAll (pattern_emphasis (js "**"))
     (substitute (tagged (js "<strong>") (js "</strong>")))
  (replaceAll (pattern_emphasis (js "***"))
     (substitute (tagged (js "<strong><em>") (js "</em></strong>")))
  (replaceAll (pattern_heading (js "# "))
     (substitute (tagged (js "<h1>") (js "</h1>")))
  (replaceAll (pattern_heading (js "## "))
     (substitute (tagged (js "<h2>") (js "</h2>")))
  (replaceAll (pattern_heading (js "### "))
     (substitute (tagged (js "<h3>") (js "</h3>"))) s)))))))))).

(** The entity that stands for a code unit in escaped text. *)
Definition escapeChar (c : N) : jsstring :=
  if N.eqb c 38 then js "&amp;"
  else if N.eqb c 60 then js "&lt;"
  else if N.eqb c 62 then js "&gt;"
  else [c].

(** The prose-markup scenario of the specification: a heading line and a
    bold line. *)
Definition titleAndBold : jsstring := js "# Title" ++ [LF] ++ js "**bold**".

(** *** The import rewriter *)

(** The code unit before the current position once [w] has been read. *)
Definition after (prev : option N) (w : jsstring) : option N :=
  fold_left (fun _ x => Some x) w prev.

(** The first code unit of [s], if any, is outside the class [p]. *)
Definition stopsAt (p : N -> bool) (s : jsstring) : Prop :=
  match s with
  | [] => True
  | y :: _ => p y = false
  end.

(** The part of [importPattern] behind the bindings. *)
Definition fromClause : regex :=
  Seq (Plus true isWhiteSpace)
  (Seq (Lit (js "from"))
  (Seq (Plus true isWhiteSpace)
  (Seq (Class isQuote)
  (Seq (Group 2 (Seq (Class bareFirst) (Star true notQuote)))
       (Class isQuote))))).

(** An import statement in the shape the rewriter looks for: the keyword,
    the bindings [bindings], [from] and the quoted specifier [first :: more],
    with the runs of white space [w1], [w2], [w3] between them and the
    quotes [q1], [q2] around the specifier. *)
Definition importStatement (w1 bindings w2 w3 : jsstring) (q1 first : N)
    (more : jsstring) (q2 : N) : jsstring :=
  js "import" ++ w1 ++ bindings ++ w2 ++ js "from" ++ w3
     ++ q1 :: (first :: more) ++ [q2].

(** The statement the rewriter writes for these bindings and this
    specifier. *)
Definition rewritten (bindings specifier : jsstring) : jsstring :=
  js "import " ++ bindings ++ js " from '" ++ esmHost ++ specifier ++ js "'".

(** White space between the parts of a statement: a run that is not
    empty. *)
Definition spaces (w : jsstring) : bool :=
  (negb (isEmpty w) && forallb isWhiteSpace w)%bool.

(** Bindings on one line, free of quotes, that neither begin nor end with
    white space. *)
Definition tidyBindings (b : jsstring) : bool :=
  (negb (isWhiteSpace (hd 32%N b)) && negb (isWhiteSpace (last b 32%N))
   && forallb notQuote b && forallb isDot b)%bool.

(** A specifier the pattern takes: no quote in it, and neither a quote, a
    dot nor a slash in front. *)
Definition bareSpecifier (first : N) (more : jsstring) : bool :=
  (bareFirst first && forallb notQuote more)%bool.


(** *** Sample platform, invocations and processes *)

(** A platform to evaluate the module on. *)
Definition sampleEnv : Env :=
  mkEnv (fun n => js "uuid-" ++ numberToString (Z.of_nat n))
        (fun n => 1700000000000 + Z.of_nat n)%Z
        (fun n => js "renderer/" ++ numberToString (Z.of_nat n))
        (fun code => js "<!DOCTYPE html>" ++ code).

Definition esbuildOk : Esbuild :=
  mkEsbuild None (fun code _ => inr code).

Definition esbuildBroken : Esbuild :=
  mkEsbuild (Some (ThrownError (js "wasm fetch failed")))
            (fun code _ => inr code).

Definition esbuildSyntaxError : Esbuild :=
  mkEsbuild None
    (fun _ _ => inl (ThrownError (js "Transform failed with 1 error"))).

(** A sample context and a console message of it. *)
Definition sampleContext : Plain :=
  fst (executePlainCode sampleEnv (js "console.log(1, 'a')") freshHost).

Definition lateConsole : Event :=
  Posted (Some (mkMessage (execId sampleContext)
                  (Console (js "log") [VString (js "late")]))).

(** The sample context after two events, and after its timer has fired. *)
Definition sampleRunning : Plain * Host :=
  dispatchAll sampleEnv sampleContext [lateConsole; Posted None]
    (snd (executePlainCode sampleEnv (js "console.log(1, 'a')") freshHost)).

Definition sampleTimedOut : Plain * Host :=
  dispatch sampleEnv (fst sampleRunning) BudgetElapsed (snd sampleRunning).

(** Sample invocations and a sample process. *)
Definition brokenRun : Invocation :=
  mkInvocation esbuildBroken (js "1 + 1") (js "typescript").

Definition plainRun : Invocation :=
  mkInvocation esbuildOk (js "console.log(2)") (js "javascript").

Definition notesRun : Invocation :=
  mkInvocation esbuildOk (js "# notes") (js "markdown").

Definition sampleProcess : list Action :=
  [Run plainRun; WindowMessage None; Run notesRun; Run plainRun; TimerOf 0].

Definition foreignMessage : Message :=
  mkMessage (js "exec_0_999") (Console (js "log") [VString (js "stale")]).

(** Two invocations that overlap while the adapter initializes: both find
    it uninitialized and call [esbuild.initialize]; the second call is
    refused as a repeated one, and the first then fails. *)
Definition racedHost : Host :=
  let h1 := snd (initEsbuildBegin freshHost) in
  let h2 := snd (initEsbuildBegin h1) in
  let h3 := snd (initEsbuildSettle (Some (ThrownError alreadyInitialized)) h2) in
  snd (initEsbuildSettle (Some (ThrownError (js "wasm fetch failed"))) h3).

(** *** Invocations, runs and texts at large *)

Definition isInitialize (c : Call) : bool :=
  match c with
  | CallInitialize => true
  | _ => false
  end.

(** The calls of [esbuild.initialize] made so far. *)
Definition initializeCalls (h : Host) : nat :=
  List.length (filter isInitialize (calls h)).

Definition isReactItem (o : OutputItem) : bool :=
  str_eqb (item_type o) (js "react").

(** The rendered views among the items emitted so far. *)
Definition views (h : Host) : list OutputItem :=
  filter isReactItem (emitted h).

Definition isRenderCall (c : Call) : bool :=
  match c with
  | CallExecuteReact _ => true
  | _ => false
  end.

(** Kind and content of the item that a message addressed to the context
    gives rise to, if any. *)
Definition itemOf (body : Payload) : list (jsstring * jsstring) :=
  match body with
  | Console method args => [(method, formatValue args)]
  | ErrorMessage message => [(js "error", message)]
  | Result VUndefined => []
  | Result value => [(js "result", formatValue [value])]
  | Done => []
  | Unknown => []
  end.

(** What the context [id] shows for a run of events: the items of its own
    messages, in order, up to the first [done] of the context or the
    timer, and the timeout error if it is the timer that comes first. *)
Fixpoint runItems (id : jsstring) (evs : list Event)
  : list (jsstring * jsstring) :=
  match evs with
  | [] => []
  | BudgetElapsed :: _ => [(js "error", js "Execution timed out (10s)")]
  | Posted None :: evs' => runItems id evs'
  | Posted (Some m) :: evs' =>
      if str_eqb (msgExecId m) id then
        match payload m with
        | Done => []
        | body => itemOf body ++ runItems id evs'
        end
      else runItems id evs'
  end.

(** The identifiers of the items emitted so far. *)
Definition itemIds (h : Host) : list jsstring := map item_id (emitted h).

(** What holds of the items of a process on a platform that never repeats
    a UUID: each identifier was drawn before the current tick, and no two
    are the same. *)
Definition idsInv (env : Env) (h : Host) : Prop :=
  NoDup (itemIds h)
  /\ forall id, In id (itemIds h) ->
       exists n, (n < tick h)%nat /\ id = randomUUID env n.

(** What holds of the calls of [esbuild.initialize] in a process whose
    invocations do not overlap: there is at most one, and none as long as
    the adapter is neither initialized nor failed. *)
Definition initInv (h : Host) : Prop :=
  (initializeCalls h <= 1)%nat
  /\ (esbuildInitialized h = false -> esbuildInitError h = None ->
      initializeCalls h = 0%nat).

(** A computation keeps [P] when it leads from hosts where [P] holds to
    hosts where it holds. *)
Definition keeps (P : Host -> Prop) {A} (m : M A) : Prop :=
  forall h, P h -> P (snd (m h)).

(** What the pattern of the rewriter needs to find in a text: the word
    [from], white space, and a quote with a code unit behind it that may
    begin a bare specifier. *)
Definition bareFromHere (s : jsstring) : bool :=
  let t := skipn 4 s in
  (startsWith s (js "from")
   && match t with
      | c :: _ => isWhiteSpace c
      | [] => false
      end
   && match dropWhile isWhiteSpace t with
      | q :: x :: _ => isQuote q && bareFirst x
      | _ => false
      end)%bool.

Fixpoint hasBareFrom (s : jsstring) : bool :=
  (bareFromHere s ||
   match s with
   | [] => false
   | _ :: s' => hasBareFrom s'
   end)%bool.

(** A module with relative, side-effect and dynamic imports only. *)
Definition localImports : jsstring :=
  js "import a from './a';" ++ [LF] ++
  js "import '../side.css';" ++ [LF] ++
  js "const m = await import('lodash');".

(** The code units the renderer gives a meaning to: the three it escapes,
    and those its structural patterns begin with. *)
Definition markupChars : list N := [38; 60; 62; 35; 42; 96; 91; 10]%N.

Definition plainChar (c : N) : bool := negb (existsb (N.eqb c) markupChars).

(** The code unit [d] does not occur in [s]. *)
Definition absent (d : N) (s : jsstring) : bool :=
  forallb (fun x => negb (N.eqb x d)) s.

(** What may stand in a heading or between emphasis marks and come out as
    it is: anything on one line but the code units that are escaped or
    begin an inline pattern. *)
Definition inlineChar (c : N) : bool :=
  (isDot c && negb (existsb (N.eqb c) [38; 60; 62; 42; 96; 91]%N))%bool.

(** The marks of a heading of the given level, and its element. *)
Definition headingMarks (level : nat) : jsstring :=
  repeat 35%N level ++ js " ".

Definition headingTag (level : nat) : jsstring :=
  js "h" ++ numberToString (Z.of_nat level).

(** How many times the code unit [d] occurs in [s]. *)
Definition occurrences (d : N) (s : jsstring) : nat :=
  List.length (filter (N.eqb d) s).

(** *** Programs with imports *)













(** * Properties *)

(** ** Strings *)

Lemma str_eqb_refl (a : jsstring) : str_eqb a a = true.
Proof.
  induction a as [|x a IH]; simpl; [reflexivity|].
  now rewrite N.eqb_refl, IH.
Qed.

Lemma str_eqb_eq (a b : jsstring) : str_eqb a b = true <-> a = b.
Proof.
  split; [|intros ->; apply str_eqb_refl].
  revert b; induction a as [|x a IH]; intros [|y b]; simpl; try discriminate;
    [reflexivity|].
  intros H; apply andb_true_iff in H as [Hx Hab].
  apply N.eqb_eq in Hx; subst; f_equal; auto.
Qed.

Lemma str_eqb_neq (a b : jsstring) : str_eqb a b = false <-> a <> b.
Proof.
  rewrite <- str_eqb_eq; destruct (str_eqb a b); split; congruence.
Qed.

Lemma dropWhile_all (p : N -> bool) (s : jsstring) :
  forallb p s = true -> dropWhile p s = [].
Proof.
  induction s as [|x s IH]; simpl; [reflexivity|].
  intros H; apply andb_true_iff in H as [Hx Hs]; now rewrite Hx, IH.
Qed.

Lemma dropWhile_nil_all (p : N -> bool) (s : jsstring) :
  dropWhile p s = [] -> forallb p s = true.
Proof.
  induction s as [|x s IH]; simpl; [reflexivity|].
  destruct (p x); [auto|discriminate].
Qed.

Lemma dropWhile_head (p : N -> bool) (s : jsstring) x t :
  dropWhile p s = x :: t -> p x = false.
Proof.
  induction s as [|y s IH]; simpl; [discriminate|].
  destruct (p y) eqn:E; [auto|]; congruence.
Qed.

(** [trim] leaves nothing exactly of the strings made of white space. *)
Lemma trim_blank (s : jsstring) :
  isEmpty (trim s) = forallb isWhiteSpace s.
Proof.
  unfold trim, trimEnd, trimStart.
  destruct (forallb isWhiteSpace s) eqn:E.
  - now rewrite (dropWhile_all _ _ E).
  - destruct (dropWhile isWhiteSpace s) as [|x t] eqn:D.
    + apply dropWhile_nil_all in D; congruence.
    + destruct (dropWhile isWhiteSpace (rev (x :: t))) as [|y u] eqn:D2.
      * apply dropWhile_nil_all in D2.
        rewrite forallb_forall in D2.
        assert (In x (rev (x :: t))) as Hin
            by (apply in_rev; rewrite rev_involutive; now left).
        apply D2 in Hin. apply dropWhile_head in D. congruence.
      * destruct (rev (y :: u)) eqn:R; [|reflexivity].
        apply (f_equal (@rev N)) in R; rewrite rev_involutive in R.
        discriminate.
Qed.


(** ** The orchestrator's early returns *)

(** C10: a source text that is empty or made of white space only ends the
    invocation at once, whatever the declared variant (prose markup
    included) and whatever the state of the module: the promise is
    fulfilled and nothing happened, no item, no call, no change of state. *)
Theorem blank_source_emits_nothing
    (env : Env) (esbuild : Esbuild) (code type : jsstring) (h : Host) :
  forallb isWhiteSpace code = true ->
  executeCode env esbuild code type h = (Fulfilled, h).
Proof.
  intros Hblank. unfold executeCode.
  now rewrite trim_blank, Hblank.
Qed.

Lemma blank_source_emits_nothing_witness :
  forallb isWhiteSpace (js "  " ++ [LF; 9%N; 160%N]) = true /\
  executeCode sampleEnv esbuildOk (js "  " ++ [LF; 9%N; 160%N])
    (js "markdown") freshHost = (Fulfilled, freshHost).
Proof.
  split; [reflexivity|].
  apply (@blank_source_emits_nothing sampleEnv esbuildOk
           (js "  " ++ [LF; 9%N; 160%N]) (js "markdown") freshHost).
  reflexivity.
Defined.

(** ** The output classifier *)

Lemma emit_eq (env : Env) (type text : jsstring) (h : Host) :
  emit env type text h =
  (tt, mkHost (esbuildInitialized h) (esbuildInitError h)
         (executionCounter h) (S (S (tick h)))
         (emitted h ++
            [mkOutput (randomUUID env (tick h)) type text
                      (Date_now env (S (tick h)))])
         (calls h)).
Proof. reflexivity. Qed.



(** ** The plain-value execution context *)

Lemma cleanup_resolved (p : Plain) : resolved p = true -> cleanup p = p.
Proof. intros H; unfold cleanup; now rewrite H. Qed.

Lemma cleanup_idempotent (p : Plain) : cleanup (cleanup p) = cleanup p.
Proof.
  destruct (resolved p) eqn:E.
  - now rewrite !(cleanup_resolved _ E).
  - apply cleanup_resolved. unfold cleanup. now rewrite E.
Qed.

Lemma cleanup_fresh (url : jsstring) (p : Plain) :
  contextInv url p -> resolved p = false ->
  cleanupActions (cleanup p) = fullCleanup url
  /\ resolved (cleanup p) = true /\ listening (cleanup p) = false
  /\ iframeAttached (cleanup p) = false
  /\ timerPending (cleanup p) = timerPending p
  /\ blobUrl (cleanup p) = Some url /\ execId (cleanup p) = execId p.
Proof.
  intros (Hurl & Hne & Hinv) Hres. rewrite Hres in Hinv.
  destruct Hinv as [Hnone Hatt].
  unfold cleanup, cleanupActions in *. rewrite Hres, Hatt, Hurl.
  destruct url as [|c u]; [congruence|]. cbn.
  rewrite !filter_app, Hnone. repeat split; reflexivity.
Qed.

Lemma contextInv_cleanup (url : jsstring) (p : Plain) :
  contextInv url p ->
  contextInv url (cleanup p) /\ execId (cleanup p) = execId p
  /\ resolved (cleanup p) = true.
Proof.
  intros Hinv. destruct (resolved p) eqn:Hres.
  - rewrite (cleanup_resolved _ Hres). auto.
  - destruct (cleanup_fresh Hinv Hres) as (A & B & _ & _ & _ & F & G).
    destruct Hinv as (_ & Hne & _).
    repeat split; auto. now rewrite B.
Qed.

Lemma contextInv_irrelevant (url : jsstring) (p : Plain) lis tim e :
  isCleanupAction e = false ->
  contextInv url p ->
  contextInv url
    (mkPlain (execId p) (resolved p) (blobUrl p) lis tim (iframeAttached p)
             (effects p ++ [e])).
Proof.
  intros He (Hurl & Hne & Hinv). unfold contextInv, cleanupActions in *.
  cbn. rewrite filter_app. cbn. rewrite He, app_nil_r. auto.
Qed.

Lemma executePlainCode_start (env : Env) (code : jsstring) (h : Host) :
  let p := fst (executePlainCode env code h) in
  let url := js "blob:" ++ blobPath env (S (tick h)) in
  browserInv url p /\ resolved p = false
  /\ execId p = executionId (Date_now env (tick h))
                            (increment (executionCounter h)).
Proof.
  cbn. unfold browserInv, contextInv. cbn. repeat split; discriminate.
Qed.

Lemma invoke_step (env : Env) (url : jsstring) (p : Plain) (cb : Callback)
    (h : Host) :
  contextInv url p ->
  let p' := fst (invoke env p cb h) in
  contextInv url p' /\ execId p' = execId p
  /\ resolved p' = (resolved p || endsRun (execId p) cb)%bool.
Proof.
  intros Hinv. destruct cb as [[m|]|]; cbn.
  - unfold handleMessage. destruct (str_eqb (msgExecId m) (execId p)); cbn.
    + destruct (payload m) as [method args|message|value| |]; cbn;
        try (rewrite orb_false_r; now auto).
      * destruct value; cbn; rewrite orb_false_r; auto.
      * rewrite orb_true_r.
        apply (contextInv_cleanup
                 (contextInv_irrelevant (listening p) false ClearTimeout
                    eq_refl Hinv)).
    + rewrite orb_false_r; auto.
  - rewrite orb_false_r; auto.
  - rewrite orb_true_r. now apply contextInv_cleanup.
Qed.

Lemma invokeAll_run (env : Env) (url : jsstring) (cbs : list Callback) :
  forall (p : Plain) (h : Host),
    contextInv url p ->
    let p' := fst (invokeAll env p cbs h) in
    contextInv url p'
    /\ resolved p' = (resolved p || existsb (endsRun (execId p)) cbs)%bool.
Proof.
  induction cbs as [|cb cbs IH]; intros p h Hinv; cbn.
  - rewrite orb_false_r; auto.
  - unfold bind. destruct (invoke env p cb h) as [p1 h1] eqn:E.
    destruct (@invoke_step env url p cb h Hinv) as (H1 & Hid & Hres).
    rewrite E in H1, Hid, Hres; cbn in H1, Hid, Hres.
    destruct (IH p1 h1 H1) as (H2 & Hres2).
    split; [exact H2|].
    rewrite Hres2, Hres, Hid. now rewrite orb_assoc.
Qed.

Ltac same_context := split; [|split]; [assumption|reflexivity|auto].
Lemma dispatch_step (env : Env) (url : jsstring) (p : Plain) (ev : Event)
    (h : Host) :
  browserInv url p ->
  let p' := fst (dispatch env p ev h) in
  browserInv url p' /\ execId p' = execId p
  /\ resolved p' = (resolved p || endsContext (execId p) ev)%bool.
Proof.
  intros Hb. pose proof Hb as (Hinv & Hlis & Htim).
  destruct ev as [data|]; cbn.
  - rewrite Hlis. destruct (resolved p) eqn:Hres; cbn; [same_context|].
    destruct data as [m|]; cbn; [|same_context].
    unfold handleMessage.
    destruct (str_eqb (msgExecId m) (execId p)); cbn; [|same_context].
    destruct (payload m) as [method args|message|value| |]; cbn;
      try same_context.
    + destruct value; cbn; same_context.
    + pose proof (contextInv_irrelevant (listening p) false ClearTimeout
                    eq_refl Hinv) as Hinv'.
      destruct (@cleanup_fresh url _ Hinv' Hres)
        as (A & B & C & D & E & F & G).
      destruct (contextInv_cleanup Hinv') as (I & _ & _).
      unfold clearTimeout. unfold browserInv.
      rewrite B, C, E. cbn. split; [|split]; auto.
  - rewrite Htim. destruct (resolved p) eqn:Hres; cbn; [same_context|].
    destruct (@cleanup_fresh url (fired p) Hinv Hres)
      as (A & B & C & D & E & F & G).
    destruct (@contextInv_cleanup url (fired p) Hinv) as (I & _ & _).
    unfold browserInv. rewrite B, C, E. cbn. split; [|split]; auto.
Qed.

Lemma dispatchAll_run (env : Env) (url : jsstring) (evs : list Event) :
  forall (p : Plain) (h : Host),
    browserInv url p ->
    let p' := fst (dispatchAll env p evs h) in
    browserInv url p'
    /\ resolved p' = (resolved p || existsb (endsContext (execId p)) evs)%bool.
Proof.
  induction evs as [|ev evs IH]; intros p h Hinv; cbn.
  - rewrite orb_false_r; auto.
  - unfold bind. destruct (dispatch env p ev h) as [p1 h1] eqn:E.
    destruct (@dispatch_step env url p ev h Hinv) as (H1 & Hid & Hres).
    rewrite E in H1, Hid, Hres; cbn in H1, Hid, Hres.
    destruct (IH p1 h1 H1) as (H2 & Hres2).
    split; [exact H2|].
    rewrite Hres2, Hres, Hid. now rewrite orb_assoc.
Qed.

(** A resolved context is out of the browser's reach: no event changes it
    or the host. *)
Lemma dispatchAll_resolved (env : Env) (url : jsstring) (evs : list Event) :
  forall (p : Plain) (h : Host),
    browserInv url p -> resolved p = true ->
    dispatchAll env p evs h = (p, h).
Proof.
  induction evs as [|ev evs IH]; intros p h Hinv Hres; cbn; [reflexivity|].
  destruct Hinv as (Hc & Hlis & Htim).
  assert (dispatch env p ev h = (p, h)) as E.
  { destruct ev; cbn; [rewrite Hlis|rewrite Htim]; now rewrite Hres. }
  unfold bind. rewrite E. apply IH; [split; auto|exact Hres].
Qed.

(** C1: the cleanup of a plain-value invocation happens exactly once.
    Whatever callbacks the browser runs on the context and in whatever
    order -- messages of any kind, the timer, [done] and the timer both,
    either of them several times -- the cleanup actions performed are none
    as long as neither a [done] of the context nor the timer has come, and
    from then on exactly these, once each: the listener removed, the iframe
    removed, the blob URL of the context revoked, the promise resolved.
    Under the browser's own delivery of events the same holds, and a
    context that is not yet cleaned up still has its timer pending, so that
    no run ends without the cleanup. *)
Theorem cleanup_exactly_once
    (env : Env) (code : jsstring) (h : Host)
    (cbs : list Callback) (evs : list Event) :
  let start := executePlainCode env code h in
  let p0 := fst start in
  let url := js "blob:" ++ blobPath env (S (tick h)) in
  let p := fst (invokeAll env p0 cbs (snd start)) in
  let q := fst (dispatchAll env p0 evs (snd start)) in
  blobUrl p0 = Some url
  /\ cleanupActions p =
       (if existsb (endsRun (execId p0)) cbs then fullCleanup url else [])
  /\ cleanupActions q =
       (if existsb (endsContext (execId p0)) evs then fullCleanup url else [])
  /\ (existsb (endsContext (execId p0)) evs = false ->
      timerPending q = true /\ listening q = true)
  /\ cleanupActions (fst (dispatch env q BudgetElapsed
                            (snd (dispatchAll env p0 evs (snd start)))))
     = fullCleanup url.
Proof.
  intros start p0 url p q.
  destruct (executePlainCode_start env code h) as (Hb & Hres & _).
  fold start p0 url in Hb, Hres.
  pose proof Hb as (Hc & _ & _).
  destruct (@invokeAll_run env url cbs p0 (snd start) Hc) as (Hp & Hrp).
  destruct (@dispatchAll_run env url evs p0 (snd start) Hb) as (Hq & Hrq).
  fold p in Hp, Hrp. fold q in Hq, Hrq.
  rewrite Hres in Hrp, Hrq. cbn [orb] in Hrp, Hrq.
  split; [now destruct Hc|].
  split; [|split; [|split]].
  - destruct Hp as (_ & _ & Hp). rewrite Hrp in Hp.
    destruct (existsb (endsRun (execId p0)) cbs); [exact Hp|now destruct Hp].
  - destruct Hq as ((_ & _ & Hq) & _ & _). rewrite Hrq in Hq.
    destruct (existsb (endsContext (execId p0)) evs);
      [exact Hq|now destruct Hq].
  - intros Hnone. destruct Hq as (_ & Hl & Ht).
    rewrite Hrq, Hnone in Hl, Ht. auto.
  - destruct (@dispatch_step env url q BudgetElapsed
                (snd (dispatchAll env p0 evs (snd start))) Hq)
      as (((_ & _ & Hd) & _ & _) & _ & Hrd).
    cbn [endsContext] in Hrd. rewrite orb_true_r in Hrd.
    rewrite Hrd in Hd. exact Hd.
Qed.

(** C2: the timeout.  When the 10 seconds have passed and no [done] of the
    context has come before, the timer's firing emits exactly one item, of
    kind [error] and with the content [Execution timed out (10s)], and
    tears the context down: the listener is removed, the iframe is out of
    the document, the blob URL is revoked and the promise is resolved.
    From then on no event whatsoever -- a late message of the context
    included -- emits an item or changes anything. *)
Theorem timeout_emits_one_error
    (env : Env) (code : jsstring) (h : Host) (evs later : list Event) :
  existsb (endsContext (execId (fst (executePlainCode env code h)))) evs
    = false ->
  let start := executePlainCode env code h in
  let url := js "blob:" ++ blobPath env (S (tick h)) in
  let mid := dispatchAll env (fst start) evs (snd start) in
  let out := dispatch env (fst mid) BudgetElapsed (snd mid) in
  (exists o, emitted (snd out) = emitted (snd mid) ++ [o]
             /\ item_type o = js "error"
             /\ content o = js "Execution timed out (10s)")
  /\ resolved (fst out) = true
  /\ listening (fst out) = false
  /\ iframeAttached (fst out) = false
  /\ cleanupActions (fst out) = fullCleanup url
  /\ dispatchAll env (fst out) later (snd out) = out.
Proof.
  intros Hnone start url mid out.
  destruct (executePlainCode_start env code h) as (Hb & Hres & _).
  fold start url in Hb, Hres. fold start in Hnone.
  destruct (@dispatchAll_run env url evs (fst start) (snd start) Hb)
    as (Hmid & Hrmid).
  fold mid in Hmid, Hrmid. rewrite Hres, Hnone in Hrmid. cbn in Hrmid.
  destruct (@dispatch_step env url (fst mid) BudgetElapsed (snd mid) Hmid)
    as (Hout & _ & Hrout).
  fold out in Hout, Hrout. rewrite orb_true_r in Hrout.
  pose proof Hmid as (Hcm & _ & Htm). rewrite Hrmid in Htm. cbn in Htm.
  split; [|split; [exact Hrout|split; [|split; [|split]]]].
  - unfold out. cbn [dispatch]. rewrite Htm. unfold onTimeout, bind.
    rewrite emit_eq. cbn. eexists; split; [reflexivity|split; reflexivity].
  - destruct Hout as (_ & Hl & _). now rewrite Hrout in Hl.
  - unfold out. cbn [dispatch]. rewrite Htm. unfold onTimeout, bind.
    rewrite emit_eq. cbn [fst].
    now destruct (@cleanup_fresh url (fired (fst mid)) Hcm Hrmid)
      as (_ & _ & _ & D & _).
  - destruct Hout as ((_ & _ & Hd) & _ & _). now rewrite Hrout in Hd.
  - rewrite (@dispatchAll_resolved env url later (fst out) (snd out) Hout Hrout).
    now destruct out.
Qed.

Lemma timeout_emits_one_error_witness :
  exists o,
    emitted (snd sampleTimedOut) = emitted (snd sampleRunning) ++ [o]
    /\ item_type o = js "error"
    /\ content o = js "Execution timed out (10s)".
Proof.
  exact (proj1 (@timeout_emits_one_error sampleEnv
                  (js "console.log(1, 'a')") freshHost
                  [lateConsole; Posted None]
                  [lateConsole;
                   Posted (Some (mkMessage (execId sampleContext) Done))]
                  eq_refl)).
Defined.

(** ** Execution identifiers *)

Lemma js_inj (a b : string) : js a = js b -> a = b.
Proof.
  unfold js. intros H.
  apply (f_equal (map ascii_of_N)) in H. rewrite !map_map in H.
  rewrite !(map_ext _ (fun x => x) ascii_N_embedding), !map_id in H.
  apply (f_equal string_of_list_ascii) in H.
  now rewrite !string_of_list_ascii_of_string in H.
Qed.

Lemma numberToString_inj (a b : Z) :
  numberToString a = numberToString b -> a = b.
Proof.
  unfold numberToString. intros H. apply js_inj in H.
  apply DecimalZ.to_int_inj.
  assert (forall z, NilZero.int_of_string (NilZero.string_of_int (Z.to_int z))
                    = Some (Z.to_int z)) as Hparse.
  { intros z. apply NilZero.isi; destruct z; cbn; try discriminate;
      intros [= E]; now apply (DecimalPos.Unsigned.to_uint_nonnil p). }
  pose proof (Hparse a) as Ha. rewrite H, Hparse in Ha. congruence.
Qed.

Lemma digits_of_uint (d : Decimal.uint) :
  forallb isDigitOrMinus (js (NilEmpty.string_of_uint d)) = true.
Proof. induction d; cbn; auto. Qed.

Lemma numberToString_digits (n : Z) :
  forallb isDigitOrMinus (numberToString n) = true.
Proof.
  unfold numberToString.
  assert (forall d, forallb isDigitOrMinus (js (NilZero.string_of_uint d))
                    = true) as Hu.
  { intros d. destruct d; try apply digits_of_uint. reflexivity. }
  destruct (Z.to_int n) as [d|d]; cbn [NilZero.string_of_int].
  - apply Hu.
  - change (js (String "-" (NilZero.string_of_uint d)))
      with (45%N :: js (NilZero.string_of_uint d)).
    cbn [forallb]. now rewrite Hu.
Qed.

Lemma numberToString_no_underscore (n : Z) : ~ In 95%N (numberToString n).
Proof.
  intros Hin. pose proof (numberToString_digits n) as H.
  rewrite forallb_forall in H. apply H in Hin. discriminate.
Qed.

(** Two texts cut at a separator that occurs in neither left part. *)
Lemma split_unique (sep : N) (a1 a2 b1 b2 : jsstring) :
  ~ In sep a1 -> ~ In sep a2 ->
  a1 ++ sep :: b1 = a2 ++ sep :: b2 -> a1 = a2 /\ b1 = b2.
Proof.
  revert a2. induction a1 as [|x a1 IH]; intros [|y a2] H1 H2 E; cbn in *.
  - injection E; auto.
  - injection E as -> _. exfalso; apply H2; now left.
  - injection E as -> _. exfalso; apply H1; now left.
  - injection E as -> E.
    destruct (IH a2) as [-> ->]; auto.
Qed.

Lemma executionId_inj (n1 n2 c1 c2 : Z) :
  executionId n1 c1 = executionId n2 c2 -> n1 = n2 /\ c1 = c2.
Proof.
  unfold executionId. intros E. apply app_inv_head in E.
  change (js "_") with [95%N] in E. cbn [app] in E.
  apply split_unique in E; try apply numberToString_no_underscore.
  destruct E as [En Ec]. split; now apply numberToString_inj.
Qed.

Lemma increment_exact (n : Z) : (n < 2 ^ 53)%Z -> increment n = (n + 1)%Z.
Proof.
  intros H. unfold increment.
  destruct (Z.ltb_spec n (2 ^ 53)); [reflexivity|lia].
Qed.

(** ** The process: identifiers and foreign messages *)

Lemma cleanup_execId (p : Plain) : execId (cleanup p) = execId p.
Proof. unfold cleanup. now destruct (resolved p). Qed.

Lemma dispatch_frame (env : Env) (p : Plain) (ev : Event) (h : Host) :
  execId (fst (dispatch env p ev h)) = execId p
  /\ moduleState (snd (dispatch env p ev h)) = moduleState h
  /\ calls (snd (dispatch env p ev h)) = calls h.
Proof.
  destruct ev as [[m|]|]; cbn.
  - destruct (listening p); cbn; [|auto]. unfold handleMessage.
    destruct (negb (str_eqb (msgExecId m) (execId p))); cbn; [auto|].
    destruct (payload m) as [method args|message|value| |]; cbn; auto.
    + destruct value; cbn; auto.
    + now rewrite cleanup_execId.
  - destruct (listening p); cbn; auto.
  - destruct (timerPending p); cbn; [|auto]. now rewrite cleanup_execId.
Qed.

Lemma deliver_frame (env : Env) (data : option Message) (ps : list Plain) :
  forall h : Host,
    map execId (fst (deliver env data ps h)) = map execId ps
    /\ moduleState (snd (deliver env data ps h)) = moduleState h
    /\ calls (snd (deliver env data ps h)) = calls h.
Proof.
  induction ps as [|p ps IH]; intros h; cbn [deliver]; [cbn; auto|].
  unfold bind.
  pose proof (dispatch_frame env p (Posted data) h) as (Hid & Hc & Hk).
  destruct (dispatch env p (Posted data) h) as [p1 h1]. cbn in Hid, Hc, Hk.
  destruct (IH h1) as (Hids & Hc' & Hk').
  destruct (deliver env data ps h1) as [ps1 h2]. cbn in *.
  repeat split; congruence.
Qed.

Lemma fireTimer_frame (env : Env) (ps : list Plain) :
  forall (n : nat) (h : Host),
    map execId (fst (fireTimer env n ps h)) = map execId ps
    /\ moduleState (snd (fireTimer env n ps h)) = moduleState h
    /\ calls (snd (fireTimer env n ps h)) = calls h.
Proof.
  induction ps as [|p ps IH]; intros n h; cbn [fireTimer]; [cbn; auto|].
  destruct n as [|n]; unfold bind.
  - pose proof (dispatch_frame env p BudgetElapsed h) as (Hid & Hc & Hk).
    destruct (dispatch env p BudgetElapsed h) as [p1 h1]. cbn in *.
    repeat split; congruence.
  - destruct (IH n h) as (Hids & Hc & Hk).
    destruct (fireTimer env n ps h) as [ps1 h1]. cbn in *.
    repeat split; congruence.
Qed.

Lemma moduleState_counter (h h' : Host) :
  moduleState h' = moduleState h -> executionCounter h' = executionCounter h.
Proof. unfold moduleState; congruence. Qed.

Lemma initEsbuild_eq (outcome : option Thrown) (h : Host) :
  initEsbuild outcome h =
  if esbuildInitialized h then (None, h)
  else
    match esbuildInitError h with
    | Some e => (Some (ThrownError e), h)
    | None =>
        if initSucceeds outcome
        then (None,
              mkHost true None (executionCounter h) (tick h) (emitted h)
                     (calls h ++ [CallInitialize]))
        else (Some (ThrownError (initMessage outcome)),
              mkHost false (Some (initMessage outcome)) (executionCounter h)
                     (tick h) (emitted h) (calls h ++ [CallInitialize]))
    end.
Proof.
  unfold initEsbuild, initEsbuildBegin, bind.
  destruct (esbuildInitialized h) eqn:Hi; [reflexivity|].
  destruct (esbuildInitError h) eqn:He; [reflexivity|].
  destruct outcome as [[m|v]|];
    unfold initEsbuildSettle, initSucceeds, initMessage, thrownMessage.
  - destruct (includes m alreadyInitialized);
      unfold bind, logCall, setInitialized, setInitError, ret; cbn;
      now rewrite ?Hi, ?He.
  - unfold bind, logCall, setInitError, ret; cbn. now rewrite Hi.
  - unfold bind, logCall, setInitialized, ret; cbn. now rewrite He.
Qed.

(** [executeCode], path by path. *)
Lemma executeCode_eq (env : Env) (esbuild : Esbuild) (code type : jsstring)
    (h : Host) :
  executeCode env esbuild code type h =
  if isEmpty (trim code) then (Fulfilled, h)
  else if str_eqb type (js "markdown")
  then (Fulfilled,
        snd (emit env (js "react") (createHtmlPreview (markdownToHtml code)) h))
  else
    match initEsbuild (initialize esbuild) h with
    | (Some error, h1) =>
        (Fulfilled,
         snd (emit env (js "error")
                (js "Failed to initialize transpiler: " ++ thrownMessage error)
                h1))
    | (None, h1) => afterInit env esbuild code type h1
    end.
Proof.
  unfold executeCode, afterInit.
  destruct (isEmpty (trim code)); [reflexivity|].
  destruct (str_eqb type (js "markdown")); [reflexivity|].
  unfold bind at 1.
  destruct (initEsbuild (initialize esbuild) h) as [[error|] h1];
    reflexivity.
Qed.

Lemma afterInit_counter (env : Env) (esbuild : Esbuild)
    (code type : jsstring) (h : Host) :
  match fst (afterInit env esbuild code type h) with
  | Fulfilled =>
      executionCounter (snd (afterInit env esbuild code type h))
      = executionCounter h
  | Awaiting p =>
      executionCounter (snd (afterInit env esbuild code type h))
      = increment (executionCounter h)
      /\ exists now,
           execId p = executionId now (increment (executionCounter h))
  end.
Proof.
  unfold afterInit.
  destruct (transform esbuild (transformImports code) (loaderOf type))
    as [[m|v]|out]; try reflexivity.
  destruct (hasReactComponent code type); [reflexivity|].
  cbn. split; [reflexivity|eauto].
Qed.

(** An invocation either leaves the counter alone and starts no context,
    or advances it once and names its context after the new value. *)
Lemma executeCode_counter (env : Env) (esbuild : Esbuild)
    (code type : jsstring) (h : Host) :
  match fst (executeCode env esbuild code type h) with
  | Fulfilled =>
      executionCounter (snd (executeCode env esbuild code type h))
      = executionCounter h
  | Awaiting p =>
      executionCounter (snd (executeCode env esbuild code type h))
      = increment (executionCounter h)
      /\ exists now,
           execId p = executionId now (increment (executionCounter h))
  end.
Proof.
  rewrite executeCode_eq.
  destruct (isEmpty (trim code)); [reflexivity|].
  destruct (str_eqb type (js "markdown")); [reflexivity|].
  rewrite initEsbuild_eq.
  destruct (esbuildInitialized h) eqn:Hi; [apply afterInit_counter|].
  destruct (esbuildInitError h) as [e|] eqn:He; [reflexivity|].
  destruct (initSucceeds (initialize esbuild)); [|reflexivity].
  apply (afterInit_counter env esbuild code type
           (mkHost true None (executionCounter h) (tick h) (emitted h)
                   (calls h ++ [CallInitialize]))).
Qed.

Lemma step_inv (env : Env) (sys : System) (a : Action) :
  processInv sys ->
  (executionCounter (host sys) + (if isRun a then 1 else 0) <= 2 ^ 53)%Z ->
  processInv (step env sys a)
  /\ (executionCounter (host (step env sys a))
      <= executionCounter (host sys) + (if isRun a then 1 else 0))%Z.
Proof.
  intros (Hpos & Hnd & Hids) Hbound. unfold processInv.
  destruct a as [inv|data|n].
  - cbn [isRun] in Hbound. cbn [step].
    pose proof (executeCode_counter env (answers inv) (source inv)
                  (variant inv) (host sys)) as Hc.
    destruct (executeCode env (answers inv) (source inv) (variant inv)
                (host sys)) as [st h']. cbn [fst snd] in Hc.
    destruct st as [|p]; cbn [host contexts isRun].
    + rewrite app_nil_r, Hc. split; [|lia]. split; [|split]; auto.
    + destruct Hc as (Hc & now & Hid).
      rewrite increment_exact in Hc, Hid by lia. rewrite Hc.
      split; [|lia]. split; [lia|]. rewrite map_app. cbn [map].
      split.
      * apply NoDup_app; [exact Hnd|repeat constructor; intros []|].
        intros id Hin [<-|[]]. apply Hids in Hin.
        destruct Hin as (n' & k & E & Hk). rewrite Hid in E.
        apply executionId_inj in E. lia.
      * intros id Hin. apply in_app_or in Hin. destruct Hin as [Hin|[<-|[]]].
        -- apply Hids in Hin. destruct Hin as (n' & k & E & Hk).
           exists n', k. split; [exact E|lia].
        -- exists now, (executionCounter (host sys) + 1)%Z.
           split; [exact Hid|lia].
  - cbn [step isRun].
    destruct (deliver_frame env data (contexts sys) (host sys))
      as (Hm & Hc & _).
    apply moduleState_counter in Hc.
    destruct (deliver env data (contexts sys) (host sys)) as [ps h'].
    cbn [fst snd] in Hm, Hc. cbn [host contexts].
    rewrite Hm, Hc. split; [|lia]. split; [|split]; auto.
  - cbn [step isRun].
    destruct (fireTimer_frame env (contexts sys) n (host sys))
      as (Hm & Hc & _).
    apply moduleState_counter in Hc.
    destruct (fireTimer env n (contexts sys) (host sys)) as [ps h'].
    cbn [fst snd] in Hm, Hc. cbn [host contexts].
    rewrite Hm, Hc. split; [|lia]. split; [|split]; auto.
Qed.

Lemma process_inv (env : Env) (acts : list Action) :
  forall sys : System,
    processInv sys ->
    (executionCounter (host sys) + Z.of_nat (invocations acts) <= 2 ^ 53)%Z ->
    processInv (process env sys acts).
Proof.
  induction acts as [|a acts IH]; intros sys Hinv Hbound; [exact Hinv|].
  cbn [process].
  assert (Z.of_nat (invocations (a :: acts))
          = (if isRun a then 1 else 0) + Z.of_nat (invocations acts))%Z as E.
  { unfold invocations. cbn [filter]. destruct (isRun a); cbn [List.length];
      lia. }
  rewrite E in Hbound.
  destruct (@step_inv env sys a Hinv) as [Hinv' Hc].
  - pose proof (Nat2Z.is_nonneg (invocations acts)). lia.
  - apply IH; [exact Hinv'|lia].
Qed.

(** C3: a message that bears another correlation identifier than the
    context's own is dropped by [handleMessage]: no item, no change of the
    context or of the host.  And the contexts of one process bear pairwise
    distinct identifiers, whatever invocations, messages and timers the
    process has seen in whatever order, as long as the invocations are at
    most [2^53], the range in which the counter counts exactly. *)
Theorem foreign_messages_inert_and_ids_distinct
    (env : Env) (p : Plain) (m : Message) (h : Host) (acts : list Action) :
  msgExecId m <> execId p ->
  (Z.of_nat (invocations acts) <= 2 ^ 53)%Z ->
  handleMessage env p (Some m) h = (p, h)
  /\ NoDup (map execId (contexts (process env freshSystem acts))).
Proof.
  intros Hid Hbound. split.
  - unfold handleMessage. apply str_eqb_neq in Hid. now rewrite Hid.
  - assert (processInv freshSystem) as H0.
    { split; [cbn; lia|]. split; [constructor|intros id []]. }
    now destruct (@process_inv env acts freshSystem H0 Hbound) as (_ & Hnd & _).
Qed.

Lemma foreign_messages_inert_and_ids_distinct_witness :
  handleMessage sampleEnv sampleContext (Some foreignMessage) freshHost
  = (sampleContext, freshHost)
  /\ NoDup (map execId
              (contexts (process sampleEnv freshSystem sampleProcess))).
Proof.
  apply (@foreign_messages_inert_and_ids_distinct sampleEnv sampleContext
           foreignMessage freshHost sampleProcess).
  - vm_compute. discriminate.
  - vm_compute. discriminate.
Defined.

(** ** The orchestrator: failures *)

Lemma not_blank (code : jsstring) :
  forallb isWhiteSpace code = false -> isEmpty (trim code) = false.
Proof. intros H. now rewrite trim_blank. Qed.

(** C4: a transpilation that fails is reported.  [esbuild.transform]
    rejects with an [Error] that bears the message of the failure.  When the
    source is not blank, the variant is not prose markup, the adapter is
    ready and the transpilation fails that way, the invocation emits exactly
    one item, of kind [error], whose content is [Transpilation error: ]
    followed by the message of the failure; it executes nothing, starts no
    context, and is fulfilled: nothing is thrown past [executeCode]. *)
Theorem transpile_failure_is_reported
    (env : Env) (esbuild : Esbuild) (code type : jsstring) (h : Host)
    (message : jsstring) :
  forallb isWhiteSpace code = false ->
  type <> js "markdown" ->
  fst (initEsbuild (initialize esbuild) h) = None ->
  transform esbuild (transformImports code) (loaderOf type)
  = inl (ThrownError message) ->
  let r := executeCode env esbuild code type h in
  fst r = Fulfilled
  /\ executions (snd r) = executions h
  /\ executionCounter (snd r) = executionCounter h
  /\ exists o, emitted (snd r) = emitted h ++ [o]
               /\ item_type o = js "error"
               /\ content o = js "Transpilation error: " ++ message.
Proof.
  intros Hcode Htype Hinit Hfail r. subst r.
  rewrite executeCode_eq, (not_blank _ Hcode).
  apply str_eqb_neq in Htype. rewrite Htype.
  rewrite initEsbuild_eq in *.
  unfold afterInit. rewrite Hfail.
  destruct (esbuildInitialized h) eqn:Hi.
  - cbn; unfold executions; cbn;
      rewrite filter_app, app_nil_r; repeat split; eauto.
  - destruct (esbuildInitError h) as [e|] eqn:He; [discriminate|].
    destruct (initSucceeds (initialize esbuild)); [|discriminate].
    cbn; unfold executions; cbn;
      rewrite !filter_app, !app_nil_r; repeat split; eauto.
Qed.

Lemma transpile_failure_is_reported_witness :
  shown (emitted (snd (executeCode sampleEnv esbuildSyntaxError
                         (js "const = 1") (js "typescript") freshHost)))
  = [(js "error", js "Transpilation error: Transform failed with 1 error")].
Proof.
  destruct (@transpile_failure_is_reported sampleEnv esbuildSyntaxError
              (js "const = 1") (js "typescript") freshHost
              (js "Transform failed with 1 error")
              eq_refl ltac:(discriminate) eq_refl eq_refl)
    as (_ & _ & _ & o & Ho & Hty & Hco).
  rewrite Ho. unfold shown. cbn [map emitted freshHost app].
  now rewrite Hty, Hco.
Defined.

(** In the failed state an invocation that reaches the adapter emits the
    cached error and touches nothing else. *)
Lemma executeCode_initFailed (env : Env) (esbuild : Esbuild)
    (code type : jsstring) (h : Host) (message : jsstring) :
  initFailed message h ->
  let r := executeCode env esbuild code type h in
  fst r = Fulfilled
  /\ moduleState (snd r) = moduleState h
  /\ calls (snd r) = calls h
  /\ (forallb isWhiteSpace code = false -> type <> js "markdown" ->
      exists o, emitted (snd r) = emitted h ++ [o]
                /\ item_type o = js "error"
                /\ content o
                   = js "Failed to initialize transpiler: " ++ message).
Proof.
  intros [Hi He] r. subst r. rewrite executeCode_eq, initEsbuild_eq, Hi, He.
  destruct (isEmpty (trim code)) eqn:Hblank.
  - repeat split; auto. intros Hcode. rewrite (not_blank _ Hcode) in Hblank.
    discriminate.
  - destruct (str_eqb type (js "markdown")) eqn:Hmd.
    + repeat split; auto. intros _ Hty. apply str_eqb_eq in Hmd. contradiction.
    + repeat split; auto. intros _ _. cbn. eauto.
Qed.

Lemma step_initFailed (env : Env) (sys : System) (a : Action)
    (message : jsstring) :
  initFailed message (host sys) ->
  initFailed message (host (step env sys a)).
Proof.
  intros Hf.
  assert (forall h', moduleState h' = moduleState (host sys) ->
                     initFailed message h') as Hkeep.
  { intros h' E. destruct Hf as [Hi He]. unfold moduleState in E.
    injection E as E1 E2 _. split; congruence. }
  destruct a as [inv|data|n]; cbn [step].
  - destruct (@executeCode_initFailed env (answers inv) (source inv)
                (variant inv) (host sys) message Hf) as (_ & Hm & _).
    destruct (executeCode env (answers inv) (source inv) (variant inv)
                (host sys)) as [st h']. now apply Hkeep.
  - destruct (deliver_frame env data (contexts sys) (host sys))
      as (_ & Hm & _).
    destruct (deliver env data (contexts sys) (host sys)) as [ps h'].
    now apply Hkeep.
  - destruct (fireTimer_frame env (contexts sys) n (host sys))
      as (_ & Hm & _).
    destruct (fireTimer env n (contexts sys) (host sys)) as [ps h'].
    now apply Hkeep.
Qed.

Lemma process_initFailed (env : Env) (acts : list Action)
    (message : jsstring) :
  forall sys : System,
    initFailed message (host sys) ->
    initFailed message (host (process env sys acts)).
Proof.
  induction acts as [|a acts IH]; intros sys Hf; [exact Hf|].
  cbn [process]. apply IH. now apply step_initFailed.
Qed.

(** C9, as the code has it.  Let an invocation with a source that is not
    blank and a variant other than prose markup find the adapter
    uninitialized and see [esbuild.initialize] fail.  It emits one [error]
    item, [Failed to initialize transpiler: ] followed by the message.
    From then on, whatever invocations, messages and timers the process
    goes through, every invocation with
    a source that is not blank and a variant other than prose markup emits
    one [error] item with that same content and does nothing else:
    [esbuild.initialize] is not called again, nothing is transpiled, no
    context is started, and the cached error stays. *)
Theorem init_failure_is_cached
    (env : Env) (sys : System) (first later : Invocation)
    (acts : list Action) :
  esbuildInitialized (host sys) = false ->
  esbuildInitError (host sys) = None ->
  initSucceeds (initialize (answers first)) = false ->
  forallb isWhiteSpace (source first) = false ->
  variant first <> js "markdown" ->
  forallb isWhiteSpace (source later) = false ->
  variant later <> js "markdown" ->
  let text := js "Failed to initialize transpiler: "
                ++ initMessage (initialize (answers first)) in
  let sys1 := step env sys (Run first) in
  let sys2 := process env sys1 acts in
  let sys3 := step env sys2 (Run later) in
  (exists o, emitted (host sys1) = emitted (host sys) ++ [o]
             /\ item_type o = js "error" /\ content o = text)
  /\ (exists o, emitted (host sys3) = emitted (host sys2) ++ [o]
                /\ item_type o = js "error" /\ content o = text)
  /\ calls (host sys3) = calls (host sys2)
  /\ contexts sys3 = contexts sys2
  /\ initFailed (initMessage (initialize (answers first))) (host sys3).
Proof.
  intros Hi He Hfail Hc1 Hv1 Hc2 Hv2 text sys1 sys2 sys3.
  assert (initFailed (initMessage (initialize (answers first))) (host sys1)
          /\ exists o, emitted (host sys1) = emitted (host sys) ++ [o]
                       /\ item_type o = js "error" /\ content o = text)
    as [Hf1 Hout1].
  { subst sys1. cbn [step]. rewrite executeCode_eq, (not_blank _ Hc1).
    apply str_eqb_neq in Hv1. rewrite Hv1.
    rewrite initEsbuild_eq, Hi, He, Hfail. cbn.
    split; [split; reflexivity|eauto]. }
  pose proof (@process_initFailed env acts _ sys1 Hf1) as Hf2.
  fold sys2 in Hf2.
  destruct (@executeCode_initFailed env (answers later) (source later)
              (variant later) (host sys2) _ Hf2) as (Hst & Hm & Hk & Hout).
  pose proof (@step_initFailed env sys2 (Run later) _ Hf2) as Hf3.
  fold sys3 in Hf3.
  subst sys3. cbn [step] in *.
  destruct (executeCode env (answers later) (source later) (variant later)
              (host sys2)) as [st h3].
  cbn [fst snd] in *. subst st. cbn [host contexts].
  rewrite app_nil_r.
  split; [exact Hout1|]. split; [now apply Hout|]. auto.
Qed.

Lemma init_failure_is_cached_witness :
  exists o,
    emitted (host (step sampleEnv
                     (process sampleEnv
                        (step sampleEnv freshSystem (Run brokenRun))
                        [Run notesRun; WindowMessage None; TimerOf 0])
                     (Run plainRun)))
    = emitted (host (process sampleEnv
                       (step sampleEnv freshSystem (Run brokenRun))
                       [Run notesRun; WindowMessage None; TimerOf 0])) ++ [o]
    /\ item_type o = js "error"
    /\ content o = js "Failed to initialize transpiler: wasm fetch failed".
Proof.
  exact (proj1 (proj2
    (@init_failure_is_cached sampleEnv freshSystem brokenRun plainRun
       [Run notesRun; WindowMessage None; TimerOf 0]
       eq_refl eq_refl eq_refl eq_refl ltac:(discriminate)
       eq_refl ltac:(discriminate)))).
Defined.

(** C9 as stated fails: once the initialization has failed, an invocation
    of the prose-markup variant still emits its rendered view, and no
    error. *)
Lemma markdown_after_init_failure :
  let failed := snd (executeCode sampleEnv esbuildBroken (js "1 + 1")
                       (js "typescript") freshHost) in
  esbuildInitError failed = Some (js "wasm fetch failed")
  /\ ~ (exists o,
          emitted (snd (executeCode sampleEnv esbuildBroken (js "# notes")
                          (js "markdown") failed))
          = emitted failed ++ [o]
          /\ item_type o = js "error").
Proof.
  split; [reflexivity|].
  intros (o & H & Hty). vm_compute in H.
  injection H as H. subst o. vm_compute in Hty. discriminate.
Qed.

(** The cached error is not looked at once the adapter is marked
    initialized, and overlapping initializations can leave both: after
    [racedHost] an invocation goes on to [esbuild.transform] and the cached
    error is not surfaced. *)
Lemma overlapping_initializations :
  esbuildInitialized racedHost = true
  /\ esbuildInitError racedHost = Some (js "wasm fetch failed")
  /\ shown (emitted (snd (executeCode sampleEnv esbuildSyntaxError
                            (js "1 + 1") (js "typescript") racedHost)))
     = [(js "error", js "Transpilation error: Transform failed with 1 error")].
Proof. repeat split; vm_compute; reflexivity. Qed.

(** ** The markdown renderer *)

Lemma replaceFrom_cons (r : regex) (f : jsstring -> captures -> jsstring)
    (prev : option N) (x : N) (s : jsstring) :
  replaceFrom r f prev 0 (x :: s) =
  match exec r prev (x :: s) with
  | Some (rest, caps) =>
      f (consumed (x :: s) rest) caps ++
      match List.length (x :: s) - List.length rest with
      | O => x :: replaceFrom r f (Some x) 0 s
      | S n => replaceFrom r f (Some x) n s
      end
  | None => x :: replaceFrom r f (Some x) 0 s
  end.
Proof. reflexivity. Qed.

Lemma one_consumed (x : N) (s : jsstring) :
  List.length (x :: s) - List.length s = 1.
Proof. cbn [List.length]. lia. Qed.

(** Replacing a single code unit of a class by a fixed text, everywhere. *)
Lemma replaceAll_class (p : N -> bool) (t : jsstring) (s : jsstring) :
  replaceAll (Class p) (substitute [Text t]) s
  = flat_map (fun c => if p c then t else [c]) s.
Proof.
  unfold replaceAll. generalize (@None N) as prev.
  induction s as [|x s IH]; intros prev; [reflexivity|].
  rewrite replaceFrom_cons. unfold exec. cbn [rmatch flat_map].
  destruct (p x).
  - rewrite one_consumed, IH. cbn. now rewrite app_nil_r.
  - now rewrite IH.
Qed.

Lemma escapeHtml_chars (s : jsstring) :
  escapeHtml s = flat_map escapeChar s.
Proof.
  unfold escapeHtml, pattern_amp, pattern_lt, pattern_gt.
  rewrite !replaceAll_class.
  induction s as [|c s IH]; [reflexivity|].
  cbn [flat_map]. rewrite !flat_map_app, IH. f_equal.
  unfold escapeChar, isChar.
  destruct (N.eqb_spec c 38) as [->|H1]; [reflexivity|].
  cbn [flat_map]. unfold isChar.
  destruct (N.eqb_spec c 60) as [->|H2]; [reflexivity|].
  cbn [flat_map app]. unfold isChar.
  destruct (N.eqb_spec c 62) as [->|H3]; reflexivity.
Qed.

Lemma escapeChar_safe (c : N) :
  forallb (fun d => negb (N.eqb d 60 || N.eqb d 62)) (escapeChar c) = true.
Proof.
  unfold escapeChar.
  destruct (N.eqb_spec c 38); [reflexivity|].
  destruct (N.eqb_spec c 60); [reflexivity|].
  destruct (N.eqb_spec c 62); [reflexivity|].
  cbn. destruct (N.eqb_spec c 60); [contradiction|].
  destruct (N.eqb_spec c 62); [contradiction|reflexivity].
Qed.

Lemma escapeHtml_safe (s : jsstring) :
  forallb (fun d => negb (N.eqb d 60 || N.eqb d 62)) (escapeHtml s) = true.
Proof.
  rewrite escapeHtml_chars.
  induction s as [|c s IH]; [reflexivity|].
  cbn [flat_map]. now rewrite forallb_app, escapeChar_safe, IH.
Qed.

(** What the renderer escapes.  [markdownToHtml] first replaces every
    [&], [<] and [>] of the text by its entity, code unit by code unit, so
    that the text the structural substitutions work on holds no [<] and no
    [>] at all; the result of the substitutions goes between [<p>] and
    [</p>].  And on a heading line followed by a bold line, [executeCode]
    emits exactly one item, of kind [react], whose content holds
    [<h1>Title</h1>] and [<strong>bold</strong>], and is fulfilled without
    a call to the transpiler, without a context and without touching the
    module's variables. *)
Theorem markdown_escapes_then_renders
    (env : Env) (esbuild : Esbuild) (h : Host) (text : jsstring) :
  escapeHtml text = flat_map escapeChar text
  /\ ~ In 60%N (escapeHtml text)
  /\ ~ In 62%N (escapeHtml text)
  /\ markdownToHtml text = js "<p>" ++ structure (escapeHtml text) ++ js "</p>"
  /\ let r := executeCode env esbuild titleAndBold (js "markdown") h in
     fst r = Fulfilled
     /\ (exists o, emitted (snd r) = emitted h ++ [o]
                   /\ item_type o = js "react"
                   /\ includes (content o) (js "<h1>Title</h1>") = true
                   /\ includes (content o) (js "<strong>bold</strong>") = true)
     /\ calls (snd r) = calls h
     /\ moduleState (snd r) = moduleState h.
Proof.
  assert (forall c, In c (escapeHtml text) -> c <> 60%N /\ c <> 62%N) as Hsafe.
  { intros c Hin. pose proof (escapeHtml_safe text) as H.
    rewrite forallb_forall in H. apply H in Hin.
    destruct (N.eqb_spec c 60); [discriminate|].
    destruct (N.eqb_spec c 62); [discriminate|]. auto. }
  split; [apply escapeHtml_chars|].
  split; [intros Hin; now destruct (Hsafe _ Hin)|].
  split; [intros Hin; now destruct (Hsafe _ Hin)|].
  split; [reflexivity|].
  intros r. subst r. rewrite executeCode_eq.
  assert (isEmpty (trim titleAndBold) = false) as -> by reflexivity.
  rewrite str_eqb_refl, emit_eq. cbn [fst snd emitted calls].
  split; [reflexivity|]. split; [|split; reflexivity].
  eexists. split; [reflexivity|]. cbn [item_type content].
  split; [reflexivity|]. split; vm_compute; reflexivity.
Qed.

(** C8: the escaping stops short of the double quote.  The link
    substitution copies the target of a link into the [href] attribute
    between double quotes, and the double quote is not among the code units
    the renderer escapes: a target that begins with one closes the
    attribute, and what follows it in the prose becomes an attribute of its
    own in the rendered anchor -- here an event handler. *)
Theorem link_target_injects_attribute :
  markdownToHtml (js "[t](" ++ [DQUOTE] ++ js " onclick=" ++ [DQUOTE]
                    ++ js "x)")
  = js "<p><a href=" ++ [DQUOTE; DQUOTE] ++ js " onclick=" ++ [DQUOTE]
      ++ js "x" ++ [DQUOTE] ++ js ">t</a></p>".
Proof. vm_compute. reflexivity. Qed.

(** ** The import rewriter *)

Lemma matchLit_app (l : jsstring) :
  forall (prev : option N) (s : jsstring),
    matchLit l prev (l ++ s) = Some (after prev l, s).
Proof.
  induction l as [|y l IH]; intros prev s; [reflexivity|].
  cbn [matchLit app]. now rewrite N.eqb_refl, IH.
Qed.

Lemma matchLit_sound (l : jsstring) :
  forall (prev pv : option N) (s s' : jsstring),
    matchLit l prev s = Some (pv, s') -> s = l ++ s' /\ pv = after prev l.
Proof.
  induction l as [|y l IH]; intros prev pv s s' H; cbn in H.
  - injection H as <- <-. auto.
  - destruct s as [|x s]; [discriminate|].
    destruct (N.eqb_spec x y) as [->|]; [|discriminate].
    apply IH in H as [-> ->]. auto.
Qed.

Lemma consumed_app (a b : jsstring) : consumed (a ++ b) b = a.
Proof.
  unfold consumed. rewrite length_app.
  replace (List.length a + List.length b - List.length b)
    with (List.length a) by lia.
  rewrite firstn_app, Nat.sub_diag, firstn_all. cbn. apply app_nil_r.
Qed.

(** *** What a successful match has read *)

Lemma star_sound (g : bool) (p : N -> bool) (k : cont) (c : captures)
    (res : matchResult) :
  forall (s : jsstring) (prev : option N),
    star g p k prev s c = Some res ->
    exists w s', s = w ++ s' /\ forallb p w = true
                 /\ k (after prev w) s' c = Some res.
Proof.
  induction s as [|x s IH]; intros prev H; cbn [star] in H.
  - now exists [], [].
  - destruct (p x) eqn:Hx; [|now exists [], (x :: s)].
    assert (star g p k (Some x) s c = Some res \/ k prev (x :: s) c = Some res)
      as [Hs|Hk].
    { destruct g; cbn [orElse] in H.
      - destruct (star true p k (Some x) s c); [left; exact H|now right].
      - destruct (k prev (x :: s) c); [right; exact H|now left]. }
    + apply IH in Hs as (w & s' & -> & Hw & Hk).
      exists (x :: w), s'. cbn [forallb]. rewrite Hx, Hw. auto.
    + now exists [], (x :: s).
Qed.

Lemma plus_sound (g : bool) (p : N -> bool) (r : regex) (k : cont)
    (prev : option N) (s : jsstring) (c : captures) (res : matchResult) :
  rmatch (Seq (Plus g p) r) k prev s c = Some res ->
  exists w s', w <> [] /\ s = w ++ s' /\ forallb p w = true
               /\ rmatch r k (after prev w) s' c = Some res.
Proof.
  unfold Plus. cbn [rmatch]. destruct s as [|x s]; [discriminate|].
  destruct (p x) eqn:Hx; [|discriminate]. intros H.
  apply star_sound in H as (w & s' & -> & Hw & Hk).
  exists (x :: w), s'. cbn [forallb]. rewrite Hx, Hw.
  repeat split; auto. discriminate.
Qed.

Lemma lit_sound (l : jsstring) (r : regex) (k : cont) (prev : option N)
    (s : jsstring) (c : captures) (res : matchResult) :
  rmatch (Seq (Lit l) r) k prev s c = Some res ->
  exists s', s = l ++ s' /\ rmatch r k (after prev l) s' c = Some res.
Proof.
  cbn [rmatch]. destruct (matchLit l prev s) as [[pv s']|] eqn:E;
    [|discriminate].
  apply matchLit_sound in E as [-> ->]. eauto.
Qed.

Lemma class_sound (p : N -> bool) (r : regex) (k : cont) (prev : option N)
    (s : jsstring) (c : captures) (res : matchResult) :
  rmatch (Seq (Class p) r) k prev s c = Some res ->
  exists x s', s = x :: s' /\ p x = true
               /\ rmatch r k (Some x) s' c = Some res.
Proof.
  cbn [rmatch]. destruct s as [|x s]; [discriminate|].
  destruct (p x) eqn:Hx; [|discriminate]. eauto.
Qed.

(** Where the [from] clause of the pattern matches, the text reads: white
    space, [from], white space, a quote. *)
Lemma fromClause_sound (k : cont) (prev : option N) (s : jsstring)
    (c : captures) (res : matchResult) :
  rmatch fromClause k prev s c = Some res ->
  exists w w' q t,
    s = w ++ js "from" ++ w' ++ q :: t
    /\ forallb isWhiteSpace w = true /\ forallb isWhiteSpace w' = true
    /\ isQuote q = true.
Proof.
  unfold fromClause. intros H.
  apply plus_sound in H as (w & s1 & _ & -> & Hw & H).
  apply lit_sound in H as (s2 & -> & H).
  apply plus_sound in H as (w' & s3 & _ & -> & Hw' & H).
  apply class_sound in H as (q & t & -> & Hq & _).
  now exists w, w', q, t.
Qed.

Lemma quote_not_space (q : N) : isQuote q = true -> isWhiteSpace q = false.
Proof.
  unfold isQuote, SQUOTE, DQUOTE. intros H. apply orb_true_iff in H.
  destruct H as [H|H]; apply N.eqb_eq in H; subst; reflexivity.
Qed.


(** *** Cutting a text at the first code unit of a class *)

Lemma split_first (p : N -> bool) (a1 a2 : jsstring) (x1 x2 : N)
    (b1 b2 : jsstring) :
  forallb (fun c => negb (p c)) a1 = true ->
  forallb (fun c => negb (p c)) a2 = true ->
  p x1 = true -> p x2 = true ->
  a1 ++ x1 :: b1 = a2 ++ x2 :: b2 ->
  a1 = a2 /\ x1 = x2 /\ b1 = b2.
Proof.
  revert a2. induction a1 as [|y a1 IH]; intros [|z a2] H1 H2 Hx1 Hx2 E;
    cbn in *.
  - injection E; auto.
  - injection E as -> _. apply andb_true_iff in H2 as [H2 _].
    now rewrite Hx1 in H2.
  - injection E as -> _. apply andb_true_iff in H1 as [H1 _].
    now rewrite Hx2 in H1.
  - injection E as -> E.
    apply andb_true_iff in H1 as [_ H1]. apply andb_true_iff in H2 as [_ H2].
    destruct (IH a2 H1 H2 Hx1 Hx2 E) as (-> & -> & ->). auto.
Qed.

Lemma space_notQuote (c : N) : isWhiteSpace c = true -> notQuote c = true.
Proof.
  intros H. unfold notQuote. destruct (isQuote c) eqn:Hq; [|reflexivity].
  apply quote_not_space in Hq. congruence.
Qed.

Lemma spaces_notQuote (w : jsstring) :
  forallb isWhiteSpace w = true -> forallb notQuote w = true.
Proof.
  intros H. apply forallb_forall. intros c Hin.
  rewrite forallb_forall in H. now apply space_notQuote, H.
Qed.

Lemma last_suffix (a : jsstring) (y : N) (b : jsstring) (d : N) :
  last (a ++ y :: b) d = last (y :: b) d.
Proof.
  induction a as [|x a IH]; [reflexivity|].
  cbn [app]. rewrite <- IH. cbn [last].
  destruct (a ++ y :: b) eqn:E; [|reflexivity].
  now destruct a.
Qed.

Lemma last_In (y : N) (b : jsstring) (d : N) : In (last (y :: b) d) (y :: b).
Proof.
  revert y. induction b as [|z b IH]; intros y; [now left|].
  right. exact (IH z).
Qed.

Lemma rev_app_cons (a : jsstring) (x : N) (b : jsstring) :
  rev (a ++ x :: b) = rev b ++ x :: rev a.
Proof. rewrite rev_app_distr. cbn [rev]. now rewrite <- app_assoc. Qed.

(** The same cut, at the last code unit of the class. *)
Lemma split_last (p : N -> bool) (a1 a2 : jsstring) (x1 x2 : N)
    (b1 b2 : jsstring) :
  forallb (fun c => negb (p c)) b1 = true ->
  forallb (fun c => negb (p c)) b2 = true ->
  p x1 = true -> p x2 = true ->
  a1 ++ x1 :: b1 = a2 ++ x2 :: b2 ->
  a1 = a2 /\ x1 = x2 /\ b1 = b2.
Proof.
  intros H1 H2 Hx1 Hx2 E.
  apply (f_equal (@rev N)) in E. rewrite !rev_app_cons in E.
  assert (forall l, forallb (fun c => negb (p c)) l = true ->
                    forallb (fun c => negb (p c)) (rev l) = true) as Hrev.
  { intros l H. apply forallb_forall. intros c Hin. apply in_rev in Hin.
    rewrite forallb_forall in H. now apply H. }
  apply (split_first p) in E; auto.
  destruct E as (Eb & Ex & Ea).
  apply (f_equal (@rev N)) in Eb, Ea. rewrite !rev_involutive in Eb, Ea.
  auto.
Qed.

(** No [from] clause begins inside tidy bindings: a text that goes on from
    a position inside the bindings to the statement's own [from] clause is
    not itself white space, [from], white space and a quote. *)
Lemma no_from_clause_inside (a : jsstring) (y : N) (b w2 w3 : jsstring)
    (q1 : N) (t1 w w' : jsstring) (q : N) (t : jsstring) :
  isWhiteSpace (last (a ++ y :: b) 32%N) = false ->
  forallb notQuote (a ++ y :: b) = true ->
  forallb isWhiteSpace w2 = true -> forallb isWhiteSpace w3 = true ->
  isQuote q1 = true ->
  forallb isWhiteSpace w = true -> forallb isWhiteSpace w' = true ->
  isQuote q = true ->
  (y :: b) ++ w2 ++ js "from" ++ w3 ++ q1 :: t1
  = w ++ js "from" ++ w' ++ q :: t ->
  False.
Proof.
  intros Hlast Hnq Hw2 Hw3 Hq1 Hw Hw' Hq E.
  rewrite forallb_app in Hnq. apply andb_true_iff in Hnq as [_ Hnq].
  assert (((y :: b) ++ w2 ++ js "from" ++ w3) ++ q1 :: t1
          = (w ++ js "from" ++ w') ++ q :: t) as E'.
  { now rewrite <- !app_assoc. }
  apply (split_first isQuote) in E'; auto.
  2:{ change (forallb notQuote ((y :: b) ++ w2 ++ js "from" ++ w3) = true).
      rewrite !forallb_app, Hnq.
      now rewrite (spaces_notQuote w2 Hw2), (spaces_notQuote w3 Hw3). }
  2:{ change (forallb notQuote (w ++ js "from" ++ w') = true).
      rewrite !forallb_app.
      now rewrite (spaces_notQuote w Hw), (spaces_notQuote w' Hw'). }
  destruct E' as (E' & _ & _).
  assert (((y :: b) ++ w2 ++ js "fro") ++ 109%N :: w3
          = (w ++ js "fro") ++ 109%N :: w') as R.
  { rewrite <- !app_assoc. exact E'. }
  apply (split_last (fun c => negb (isWhiteSpace c))) in R; try reflexivity.
  2:{ apply forallb_forall. intros c Hin.
      rewrite forallb_forall in Hw3. now rewrite (Hw3 c Hin). }
  2:{ apply forallb_forall. intros c Hin.
      rewrite forallb_forall in Hw'. now rewrite (Hw' c Hin). }
  destruct R as (R & _ & _).
  rewrite app_assoc in R. apply app_inv_tail in R.
  rewrite last_suffix in Hlast.
  pose proof (last_In y b 32%N) as Hin.
  assert (In (last (y :: b) 32%N) w) as Hin'.
  { rewrite <- R. apply in_or_app. now left. }
  rewrite forallb_forall in Hw. apply Hw in Hin'. congruence.
Qed.

(** *** How the pattern reads an import statement *)

(** A greedy run reads all of [w] when what follows [w] is outside the
    class and the rest of the pattern matches from there. *)
Lemma star_greedy_run (p : N -> bool) (k : cont) (w rest : jsstring)
    (c : captures) (res : matchResult) :
  forall prev : option N,
    forallb p w = true -> stopsAt p rest ->
    k (after prev w) rest c = Some res ->
    star true p k prev (w ++ rest) c = Some res.
Proof.
  induction w as [|x w IH]; intros prev Hw Hstop Hk.
  - cbn [app]. destruct rest as [|y rest]; [exact Hk|].
    cbn in Hstop. cbn [star]. now rewrite Hstop.
  - cbn [forallb] in Hw. apply andb_true_iff in Hw as [Hx Hw].
    cbn [app star]. rewrite Hx.
    rewrite (IH (Some x) Hw Hstop Hk). reflexivity.
Qed.

(** A lazy run reads all of [w] when the rest of the pattern fails at
    every position inside [w] and matches behind it. *)
Lemma star_lazy_run (p : N -> bool) (k : cont) (rest : jsstring)
    (c : captures) (res : matchResult) :
  forall (w : jsstring) (prev : option N),
    forallb p w = true ->
    (forall pv a y b, w = a ++ y :: b -> k pv (y :: b ++ rest) c = None) ->
    k (after prev w) rest c = Some res ->
    star false p k prev (w ++ rest) c = Some res.
Proof.
  induction w as [|x w IH]; intros prev Hw Hfail Hk.
  - cbn [app]. cbn in Hk. destruct rest as [|y rest]; [exact Hk|].
    cbn [star]. destruct (p y); [now rewrite Hk|exact Hk].
  - cbn [forallb] in Hw. apply andb_true_iff in Hw as [Hx Hw].
    cbn [app star]. rewrite Hx, (Hfail prev [] x w eq_refl).
    cbn [orElse]. apply IH; [exact Hw| |exact Hk].
    intros pv a y b E. apply (Hfail pv (x :: a) y b). now rewrite E.
Qed.

Lemma rmatch_lit (l : jsstring) (r : regex) (k : cont) (prev : option N)
    (s : jsstring) (c : captures) :
  rmatch (Seq (Lit l) r) k prev (l ++ s) c = rmatch r k (after prev l) s c.
Proof. cbn [rmatch]. now rewrite matchLit_app. Qed.

Lemma rmatch_class (p : N -> bool) (r : regex) (k : cont) (prev : option N)
    (x : N) (s : jsstring) (c : captures) :
  p x = true ->
  rmatch (Seq (Class p) r) k prev (x :: s) c = rmatch r k (Some x) s c.
Proof. intros Hx. cbn [rmatch]. now rewrite Hx. Qed.

Lemma rmatch_plus_greedy (p : N -> bool) (r : regex) (k : cont)
    (prev : option N) (w rest : jsstring) (c : captures) (res : matchResult) :
  w <> [] -> forallb p w = true -> stopsAt p rest ->
  rmatch r k (after prev w) rest c = Some res ->
  rmatch (Seq (Plus true p) r) k prev (w ++ rest) c = Some res.
Proof.
  intros Hne Hw Hstop Hk. destruct w as [|x w]; [congruence|].
  cbn [forallb] in Hw. apply andb_true_iff in Hw as [Hx Hw].
  unfold Plus. cbn [rmatch app]. rewrite Hx.
  now apply star_greedy_run.
Qed.

Lemma rmatch_group_lazy (i : nat) (p : N -> bool) (r : regex) (k : cont)
    (prev : option N) (w rest : jsstring) (c : captures) (res : matchResult) :
  w <> [] -> forallb p w = true ->
  (forall pv a y b c', w = a ++ y :: b -> a <> [] ->
                       rmatch r k pv (y :: b ++ rest) c' = None) ->
  rmatch r k (after prev w) rest (setCapture i w c) = Some res ->
  rmatch (Seq (Group i (Plus false p)) r) k prev (w ++ rest) c = Some res.
Proof.
  intros Hne Hw Hfail Hk. destruct w as [|x w]; [congruence|].
  cbn [forallb] in Hw. apply andb_true_iff in Hw as [Hx Hw].
  unfold Plus. cbn [rmatch]. cbn [app]. rewrite Hx.
  apply star_lazy_run.
  - exact Hw.
  - intros pv a y b E. apply (Hfail pv (x :: a) y b); [|discriminate].
    now rewrite E.
  - change (x :: w ++ rest) with ((x :: w) ++ rest).
    rewrite consumed_app. exact Hk.
Qed.

Lemma spaces_spec (w : jsstring) :
  spaces w = true -> w <> [] /\ forallb isWhiteSpace w = true.
Proof.
  unfold spaces. intros H. apply andb_true_iff in H as [Hne Hw].
  split; [|exact Hw]. now destruct w.
Qed.

Lemma tidyBindings_spec (b : jsstring) :
  tidyBindings b = true ->
  b <> [] /\ isWhiteSpace (hd 32%N b) = false
  /\ isWhiteSpace (last b 32%N) = false
  /\ forallb notQuote b = true /\ forallb isDot b = true.
Proof.
  unfold tidyBindings. intros H.
  apply andb_true_iff in H as [H Hdot].
  apply andb_true_iff in H as [H Hnq].
  apply andb_true_iff in H as [Hhd Hlast].
  apply negb_true_iff in Hhd, Hlast.
  repeat split; auto. intros ->. discriminate.
Qed.

Lemma replaceFrom_skip_all (r : regex) (f : jsstring -> captures -> jsstring) :
  (forall prev, exec r prev [] = None) ->
  forall (s : jsstring) (prev : option N),
    replaceFrom r f prev (List.length s) s = [].
Proof.
  intros Hend. induction s as [|x s IH]; intros prev.
  - cbn. now rewrite Hend.
  - cbn [List.length replaceFrom]. apply IH.
Qed.

(** A pattern that matches the whole input: the result is the replacement
    of that one match. *)
Lemma replaceAll_whole (r : regex) (f : jsstring -> captures -> jsstring)
    (s : jsstring) (caps : captures) :
  s <> [] ->
  (forall prev, exec r prev [] = None) ->
  exec r None s = Some ([], caps) ->
  replaceAll r f s = f s caps.
Proof.
  intros Hne Hend Hexec. destruct s as [|x s]; [congruence|].
  unfold replaceAll. rewrite replaceFrom_cons, Hexec.
  unfold consumed. cbn [List.length]. rewrite Nat.sub_0_r.
  change (S (List.length s)) with (List.length (x :: s)) at 1.
  rewrite firstn_all, replaceFrom_skip_all by exact Hend.
  apply app_nil_r.
Qed.



(** C6 on a package whose name begins with [http]: the specifier is a bare
    package name, yet the statement is left as it is, whereas a bare name
    such as [lodash] is rewritten and a relative specifier is not. *)
Theorem bare_http_package_not_rewritten :
  transformImports (js "import createError from 'http-errors'")
  = js "import createError from 'http-errors'"
  /\ transformImports (js "import _ from 'lodash'")
     = js "import _ from 'https://esm.sh/lodash'"
  /\ transformImports (js "import x from './local'")
     = js "import x from './local'".
Proof. repeat split; vm_compute; reflexivity. Qed.

(** ** More of the executor *)

(** *** The shape of one invocation *)

Lemma includes_not_blank (y : N) (p code : jsstring) :
  isWhiteSpace y = false ->
  includes code (y :: p) = true -> forallb isWhiteSpace code = false.
Proof.
  intros Hy. induction code as [|x code IH]; [discriminate|].
  cbn [includes startsWith forallb]. intros H.
  apply orb_true_iff in H as [H|H].
  - apply andb_true_iff in H as [H _]. apply N.eqb_eq in H. subst x.
    now rewrite Hy.
  - rewrite (IH H). apply andb_false_r.
Qed.

Lemma component_not_blank (code type : jsstring) :
  hasReactComponent code type = true ->
  isJsx type = true /\ forallb isWhiteSpace code = false.
Proof.
  unfold hasReactComponent. intros H.
  apply andb_true_iff in H as [Hjsx H]. split; [exact Hjsx|].
  apply orb_true_iff in H as [H|H]; [apply orb_true_iff in H as [H|H]|];
    revert H; apply includes_not_blank; reflexivity.
Qed.

Lemma isJsx_not_markdown (type : jsstring) :
  isJsx type = true -> str_eqb type (js "markdown") = false.
Proof.
  unfold isJsx. intros H. apply orb_true_iff in H.
  destruct H as [H|H]; apply str_eqb_eq in H; subst; reflexivity.
Qed.

(** X1: the rendering path.  For the variants [tsx] and [jsx], code that
    holds a [<], [export default] or [export function] anywhere is taken
    for a component: once the adapter is ready and the transpilation has
    succeeded, the invocation emits one [react] item, the document built
    around the transpiled code, and is fulfilled at once; it starts no
    context and leaves the execution counter alone. *)
Theorem markup_code_is_rendered
    (env : Env) (esbuild : Esbuild) (code type out : jsstring) (h : Host) :
  hasReactComponent code type = true ->
  fst (initEsbuild (initialize esbuild) h) = None ->
  transform esbuild (transformImports code) (loaderOf type) = inr out ->
  let r := executeCode env esbuild code type h in
  fst r = Fulfilled
  /\ (exists o, emitted (snd r) = emitted h ++ [o]
                /\ item_type o = js "react"
                /\ content o = reactDocument env out)
  /\ executions (snd r) = executions h ++ [CallExecuteReact out]
  /\ executionCounter (snd r) = executionCounter h.
Proof.
  intros Hrc Hinit Hout r. subst r.
  destruct (component_not_blank _ _ Hrc) as [Hjsx Hcode].
  rewrite executeCode_eq, (not_blank _ Hcode).
  rewrite (isJsx_not_markdown _ Hjsx).
  rewrite initEsbuild_eq in *.
  unfold afterInit. rewrite Hout, Hrc.
  destruct (esbuildInitialized h) eqn:Hi.
  - cbn. unfold executions. cbn. rewrite !filter_app. cbn.
    rewrite app_nil_r. repeat split; eauto.
  - destruct (esbuildInitError h) as [e|] eqn:He; [discriminate|].
    destruct (initSucceeds (initialize esbuild)); [|discriminate].
    cbn. unfold executions. cbn. rewrite !filter_app. cbn.
    rewrite !app_nil_r. repeat split; eauto.
Qed.

Lemma markup_code_is_rendered_witness :
  exists o,
    emitted (snd (executeCode sampleEnv esbuildOk (js "<App />") (js "tsx")
                    freshHost)) = [o]
    /\ item_type o = js "react"
    /\ content o = reactDocument sampleEnv (js "<App />").
Proof.
  exact (proj1 (proj2
    (@markup_code_is_rendered sampleEnv esbuildOk (js "<App />") (js "tsx")
       (js "<App />") freshHost eq_refl eq_refl eq_refl))).
Defined.

(** X2: [executeCode] itself renders components and prose only.  For a
    variant other than [markdown], on code that is not taken for a
    component -- any code of a variant that is neither [tsx] nor [jsx], and
    code of these two that holds none of the three marks -- [executeCode]
    emits no [react] item and does not call [executeReactCode], whether it
    returns at once or hands over to a plain context.  This is about what
    [executeCode] does up to that point: the items of the plain run that
    follows bear the kind their messages name. *)
Theorem executeCode_renders_components_only
    (env : Env) (esbuild : Esbuild) (code type : jsstring) (h : Host) :
  hasReactComponent code type = false ->
  type <> js "markdown" ->
  let r := executeCode env esbuild code type h in
  views (snd r) = views h
  /\ filter isRenderCall (calls (snd r)) = filter isRenderCall (calls h).
Proof.
  intros Hrc Hmd r. subst r. apply str_eqb_neq in Hmd.
  rewrite executeCode_eq, Hmd.
  destruct (isEmpty (trim code)); [auto|].
  rewrite initEsbuild_eq.
  assert (forall h0, views h0 = views h ->
            filter isRenderCall (calls h0) = filter isRenderCall (calls h) ->
            views (snd (afterInit env esbuild code type h0)) = views h
            /\ filter isRenderCall (calls (snd (afterInit env esbuild code type h0)))
               = filter isRenderCall (calls h)) as Hrest.
  { intros h0 Hv Hc. unfold afterInit. rewrite Hrc.
    destruct (transform esbuild (transformImports code) (loaderOf type))
      as [[m|v]|out]; cbn; unfold views; cbn;
      rewrite ?filter_app; cbn; rewrite ?app_nil_r; auto. }
  destruct (esbuildInitialized h) eqn:Hi; [now apply Hrest|].
  destruct (esbuildInitError h) as [e|] eqn:He.
  - cbn. unfold views. cbn. rewrite filter_app. cbn. now rewrite app_nil_r.
  - destruct (initSucceeds (initialize esbuild)).
    + apply Hrest; [reflexivity|]. cbn. rewrite filter_app. cbn.
      now rewrite app_nil_r.
    + cbn. unfold views. cbn. rewrite !filter_app. cbn.
      now rewrite !app_nil_r.
Qed.

Lemma executeCode_renders_components_only_witness :
  views (snd (executeCode sampleEnv esbuildOk (js "const a = 1 + 2")
                (js "tsx") freshHost)) = [].
Proof.
  exact (proj1 (@executeCode_renders_components_only sampleEnv esbuildOk
                  (js "const a = 1 + 2") (js "tsx") freshHost
                  eq_refl ltac:(discriminate))).
Defined.

(** X3: prose markup does not depend on the adapter.  An invocation of the
    [markdown] variant on a source that is not blank emits exactly one
    [react] item, the preview document of the rendered markup, and is
    fulfilled at once, in every state of the module: no call to [esbuild],
    no context, and the module's variables stay as they are. *)
Theorem markdown_never_reaches_adapter
    (env : Env) (esbuild : Esbuild) (code : jsstring) (h : Host) :
  forallb isWhiteSpace code = false ->
  let r := executeCode env esbuild code (js "markdown") h in
  fst r = Fulfilled
  /\ (exists o, emitted (snd r) = emitted h ++ [o]
                /\ item_type o = js "react"
                /\ content o = createHtmlPreview (markdownToHtml code))
  /\ calls (snd r) = calls h
  /\ moduleState (snd r) = moduleState h.
Proof.
  intros Hcode r. subst r.
  rewrite executeCode_eq, (not_blank _ Hcode), str_eqb_refl, emit_eq.
  cbn. repeat split. eauto.
Qed.

Lemma markdown_never_reaches_adapter_witness :
  calls (snd (executeCode sampleEnv esbuildBroken (js "*hi*") (js "markdown")
                racedHost)) = calls racedHost.
Proof.
  exact (proj1 (proj2 (proj2
    (@markdown_never_reaches_adapter sampleEnv esbuildBroken (js "*hi*")
       racedHost eq_refl)))).
Defined.

(** X4: the shape of one invocation.  [executeCode] calls
    [esbuild.initialize] at most once, and only when the adapter is neither
    initialized nor failed; it calls [esbuild.transform] at most once, on
    the code with its imports rewritten and with the loader of the variant;
    it starts at most one execution, only on code that [transform]
    returned; and it emits at most one item itself, none when it hands
    over to a plain-value context. *)
Theorem invocation_shape
    (env : Env) (esbuild : Esbuild) (code type : jsstring) (h : Host) :
  let r := executeCode env esbuild code type h in
  exists i t e items,
    calls (snd r) = calls h ++ i ++ t ++ e
    /\ emitted (snd r) = emitted h ++ items
    /\ (i = [] \/ i = [CallInitialize] /\ esbuildInitialized h = false
                  /\ esbuildInitError h = None)
    /\ (t = [] \/ t = [CallTransform (transformImports code) (loaderOf type)])
    /\ (e = [] \/
        exists out,
          transform esbuild (transformImports code) (loaderOf type) = inr out
          /\ t <> []
          /\ (e = [CallExecuteReact out] \/ e = [CallExecutePlain out]))
    /\ (List.length items <= 1)%nat
    /\ match fst r with
       | Fulfilled => True
       | Awaiting p =>
           items = [] /\ exists out, e = [CallExecutePlain out]
       end.
Proof.
  intros r. subst r. rewrite executeCode_eq.
  destruct (isEmpty (trim code)).
  { exists [], [], [], []. cbn. rewrite ?app_nil_r. repeat split; auto. }
  destruct (str_eqb type (js "markdown")).
  { rewrite emit_eq. eexists [], [], [], [_]. cbn. rewrite ?app_nil_r.
    repeat split; auto. }
  rewrite initEsbuild_eq.
  assert (forall h0 i,
    emitted h0 = emitted h -> calls h0 = calls h ++ i ->
    (i = [] \/ i = [CallInitialize] /\ esbuildInitialized h = false
               /\ esbuildInitError h = None) ->
    let r := afterInit env esbuild code type h0 in
    exists i t e items,
      calls (snd r) = calls h ++ i ++ t ++ e
      /\ emitted (snd r) = emitted h ++ items
      /\ (i = [] \/ i = [CallInitialize] /\ esbuildInitialized h = false
                    /\ esbuildInitError h = None)
      /\ (t = [] \/ t = [CallTransform (transformImports code) (loaderOf type)])
      /\ (e = [] \/
          exists out,
            transform esbuild (transformImports code) (loaderOf type) = inr out
            /\ t <> []
            /\ (e = [CallExecuteReact out] \/ e = [CallExecutePlain out]))
      /\ (List.length items <= 1)%nat
      /\ match fst r with
         | Fulfilled => True
         | Awaiting p =>
             items = [] /\ exists out, e = [CallExecutePlain out]
         end) as Hrest.
  { intros h0 i He Hc Hi r. subst r. unfold afterInit.
    destruct (transform esbuild (transformImports code) (loaderOf type))
      as [[m|v]|out] eqn:Ht.
    - eexists i, [_], [], [_]. cbn. rewrite He, Hc, <- !app_assoc.
      repeat split; auto.
    - eexists i, [_], [], []. cbn. rewrite He, Hc, <- !app_assoc.
      rewrite ?app_nil_r. repeat split; auto.
    - destruct (hasReactComponent code type).
      + eexists i, [_], [_], [_]. cbn. rewrite He, Hc, <- !app_assoc.
        repeat split; auto. right. exists out.
        repeat split; auto. discriminate.
      + eexists i, [_], [_], []. cbn. rewrite He, Hc, <- !app_assoc.
        rewrite ?app_nil_r. repeat split; auto.
        * right. exists out. repeat split; auto. discriminate.
        * eauto. }
  destruct (esbuildInitialized h) eqn:Hi.
  { apply (Hrest h []); auto. now rewrite app_nil_r. }
  destruct (esbuildInitError h) as [e|] eqn:He.
  { rewrite emit_eq. eexists [], [], [], [_]. cbn. rewrite ?app_nil_r.
    repeat split; auto. }
  destruct (initSucceeds (initialize esbuild)).
  - apply (Hrest _ [CallInitialize]); auto.
  - rewrite emit_eq. eexists [CallInitialize], [], [], [_]. cbn.
    rewrite ?app_nil_r. repeat split; auto.
Qed.

(** *** The adapter is initialized once *)

Lemma afterInit_frame (env : Env) (esbuild : Esbuild) (code type : jsstring)
    (h : Host) :
  let r := afterInit env esbuild code type h in
  esbuildInitialized (snd r) = esbuildInitialized h
  /\ esbuildInitError (snd r) = esbuildInitError h
  /\ initializeCalls (snd r) = initializeCalls h.
Proof.
  intros r. subst r. unfold afterInit, initializeCalls.
  destruct (transform esbuild (transformImports code) (loaderOf type))
    as [[m|v]|out]; [| |destruct (hasReactComponent code type)];
    cbn; rewrite ?filter_app; cbn; rewrite ?app_nil_r; auto.
Qed.

Lemma executeCode_initInv (env : Env) (esbuild : Esbuild)
    (code type : jsstring) (h : Host) :
  initInv h -> initInv (snd (executeCode env esbuild code type h)).
Proof.
  intros [Hle Hzero]. rewrite executeCode_eq.
  destruct (isEmpty (trim code)); [now split|].
  destruct (str_eqb type (js "markdown")); [now split|].
  rewrite initEsbuild_eq.
  destruct (esbuildInitialized h) eqn:Hi.
  { destruct (afterInit_frame env esbuild code type h) as (A & B & C).
    unfold initInv. rewrite A, B, C, Hi. split; [exact Hle|discriminate]. }
  destruct (esbuildInitError h) as [e|] eqn:He.
  { rewrite emit_eq. unfold initInv, initializeCalls in *. cbn.
    rewrite Hi, He. split; [exact Hle|discriminate]. }
  specialize (Hzero eq_refl eq_refl).
  destruct (initSucceeds (initialize esbuild)).
  - match goal with
    | |- initInv (snd (afterInit _ _ _ _ ?h0)) =>
        destruct (afterInit_frame env esbuild code type h0) as (A & B & C)
    end.
    unfold initInv. rewrite A, B, C. unfold initializeCalls in *. cbn.
    rewrite filter_app, length_app, Hzero. cbn. split; [lia|discriminate].
  - rewrite emit_eq. unfold initInv, initializeCalls in *. cbn.
    rewrite filter_app, length_app, Hzero. cbn. split; [lia|discriminate].
Qed.

Lemma step_initInv (env : Env) (sys : System) (a : Action) :
  initInv (host sys) -> initInv (host (step env sys a)).
Proof.
  intros Hinv.
  assert (forall h', moduleState h' = moduleState (host sys) ->
                     calls h' = calls (host sys) -> initInv h') as Hkeep.
  { intros h' Hm Hc. unfold moduleState in Hm. injection Hm as E1 E2 _.
    unfold initInv, initializeCalls in *. now rewrite E1, E2, Hc. }
  destruct a as [inv|data|n]; cbn [step].
  - pose proof (@executeCode_initInv env (answers inv) (source inv)
                  (variant inv) (host sys) Hinv) as H.
    now destruct (executeCode env (answers inv) (source inv) (variant inv)
                    (host sys)).
  - destruct (deliver_frame env data (contexts sys) (host sys))
      as (_ & Hm & Hc).
    destruct (deliver env data (contexts sys) (host sys)). now apply Hkeep.
  - destruct (fireTimer_frame env (contexts sys) n (host sys))
      as (_ & Hm & Hc).
    destruct (fireTimer env n (contexts sys) (host sys)). now apply Hkeep.
Qed.

(** X5: in a process whose invocations do not overlap while the adapter
    initializes, [esbuild.initialize] is called at most once, whether it
    succeeds or fails and whatever follows. *)
Theorem initialize_called_at_most_once (env : Env) (acts : list Action) :
  (initializeCalls (host (process env freshSystem acts)) <= 1)%nat.
Proof.
  assert (forall sys, initInv (host sys) ->
                      initInv (host (process env sys acts))) as H.
  { induction acts as [|a acts IH]; intros sys Hinv; [exact Hinv|].
    cbn [process]. apply IH. now apply step_initInv. }
  apply (H freshSystem). split; [cbn; lia|reflexivity].
Qed.

(** *** Invariants of the host *)

Section HostInvariant.

Variable env : Env.
Variable P : Host -> Prop.

(** [P] looks at the emitted items only, and at the tick as a bound. *)
Hypothesis P_frame :
  forall h h', P h -> emitted h' = emitted h -> (tick h <= tick h')%nat ->
               P h'.
Hypothesis P_emit :
  forall h type text, P h -> P (snd (emit env type text h)).

Lemma keeps_ret {A} (a : A) : keeps P (ret a).
Proof. intros h Hp. exact Hp. Qed.

Lemma keeps_bind {A B} (m : M A) (k : A -> M B) :
  keeps P m -> (forall a, keeps P (k a)) -> keeps P (bind m k).
Proof.
  intros Hm Hk h Hp. unfold bind.
  pose proof (Hm h Hp) as Hp'. destruct (m h) as [a h']. now apply Hk.
Qed.

Lemma keeps_logCall (c : Call) : keeps P (logCall c).
Proof. intros h Hp. apply (@P_frame h _ Hp); cbn; auto. Qed.

Lemma keeps_draw {A} (f : nat -> A) : keeps P (draw f).
Proof. intros h Hp. apply (@P_frame h _ Hp); cbn; auto. Qed.

Lemma keeps_emit (type text : jsstring) : keeps P (emit env type text).
Proof. intros h Hp. now apply P_emit. Qed.

Lemma keeps_initEsbuild (outcome : option Thrown) :
  keeps P (initEsbuild outcome).
Proof.
  intros h Hp. rewrite initEsbuild_eq.
  destruct (esbuildInitialized h); [exact Hp|].
  destruct (esbuildInitError h); [exact Hp|].
  destruct (initSucceeds outcome); apply (@P_frame h _ Hp); cbn; auto.
Qed.

Lemma keeps_executePlainCode (code : jsstring) :
  keeps P (executePlainCode env code).
Proof. intros h Hp. apply (@P_frame h _ Hp); cbn; auto. Qed.

Lemma keeps_executeCode (esbuild : Esbuild) (code type : jsstring) :
  keeps P (executeCode env esbuild code type).
Proof.
  unfold executeCode.
  destruct (isEmpty (trim code)); [apply keeps_ret|].
  destruct (str_eqb type (js "markdown")).
  { apply keeps_bind; [apply keeps_emit|intros; apply keeps_ret]. }
  apply keeps_bind; [apply keeps_initEsbuild|].
  intros [error|].
  { apply keeps_bind; [apply keeps_emit|intros; apply keeps_ret]. }
  apply keeps_bind; [apply keeps_logCall|]. intros _.
  destruct (transform esbuild (transformImports code) (loaderOf type))
    as [[m|v]|out].
  - apply keeps_bind; [apply keeps_emit|intros; apply keeps_ret].
  - apply keeps_bind; intros; apply keeps_ret.
  - destruct (hasReactComponent code type).
    + apply keeps_bind; [|intros; apply keeps_ret].
      unfold executeReactCode.
      apply keeps_bind; [apply keeps_logCall|intros; apply keeps_emit].
    + apply keeps_bind; [apply keeps_executePlainCode|intros; apply keeps_ret].
Qed.

Lemma keeps_handleMessage (p : Plain) (data : option Message) :
  keeps P (handleMessage env p data).
Proof.
  unfold handleMessage. destruct data as [m|]; [|apply keeps_ret].
  destruct (negb (str_eqb (msgExecId m) (execId p))); [apply keeps_ret|].
  destruct (payload m) as [method args|message|value| |];
    try apply keeps_ret;
    try (apply keeps_bind; [apply keeps_emit|intros; apply keeps_ret]).
  destruct value; try apply keeps_ret;
    apply keeps_bind; try apply keeps_emit; intros; apply keeps_ret.
Qed.

Lemma keeps_dispatch (p : Plain) (ev : Event) : keeps P (dispatch env p ev).
Proof.
  destruct ev as [data|]; cbn [dispatch].
  - destruct (listening p); [apply keeps_handleMessage|apply keeps_ret].
  - destruct (timerPending p); [|apply keeps_ret].
    unfold onTimeout.
    apply keeps_bind; [apply keeps_emit|intros; apply keeps_ret].
Qed.

Lemma keeps_deliver (data : option Message) (ps : list Plain) :
  keeps P (deliver env data ps).
Proof.
  induction ps as [|p ps IH]; cbn [deliver]; [apply keeps_ret|].
  apply keeps_bind; [apply keeps_dispatch|]. intros p'.
  apply keeps_bind; [exact IH|intros; apply keeps_ret].
Qed.

Lemma keeps_fireTimer (ps : list Plain) :
  forall n : nat, keeps P (fireTimer env n ps).
Proof.
  induction ps as [|p ps IH]; intros n; cbn [fireTimer]; [apply keeps_ret|].
  destruct n as [|n].
  - apply keeps_bind; [apply keeps_dispatch|intros; apply keeps_ret].
  - apply keeps_bind; [apply IH|intros; apply keeps_ret].
Qed.

Lemma keeps_step (sys : System) (a : Action) :
  P (host sys) -> P (host (step env sys a)).
Proof.
  intros Hp. destruct a as [inv|data|n]; cbn [step].
  - pose proof (@keeps_executeCode (answers inv) (source inv) (variant inv)
                  (host sys) Hp) as H.
    now destruct (executeCode env (answers inv) (source inv) (variant inv)
                    (host sys)).
  - pose proof (@keeps_deliver data (contexts sys) (host sys) Hp) as H.
    now destruct (deliver env data (contexts sys) (host sys)).
  - pose proof (@keeps_fireTimer (contexts sys) n (host sys) Hp) as H.
    now destruct (fireTimer env n (contexts sys) (host sys)).
Qed.

Lemma keeps_process (acts : list Action) :
  forall sys : System, P (host sys) -> P (host (process env sys acts)).
Proof.
  induction acts as [|a acts IH]; intros sys Hp; [exact Hp|].
  cbn [process]. apply IH. now apply keeps_step.
Qed.

End HostInvariant.

Lemma idsInv_fresh (env : Env) : idsInv env freshHost.
Proof. split; [constructor|intros id []]. Qed.

(** X7: on a platform whose [crypto.randomUUID] never repeats a value, the
    items of a process bear pairwise distinct identifiers. *)
Theorem item_ids_are_distinct (env : Env) (acts : list Action) :
  (forall a b : nat, randomUUID env a = randomUUID env b -> a = b) ->
  NoDup (itemIds (host (process env freshSystem acts))).
Proof.
  intros Hinj.
  apply (@keeps_process env (idsInv env)).
  - intros h h' [Hnd Hb] He Ht. unfold idsInv, itemIds in *. rewrite He.
    split; [exact Hnd|]. intros id Hin. destruct (Hb id Hin) as (n & Hn & E).
    exists n. split; [lia|exact E].
  - intros h type text [Hnd Hb]. rewrite emit_eq.
    unfold idsInv, itemIds in *. cbn. rewrite map_app. cbn.
    split.
    + apply NoDup_app; [exact Hnd|repeat constructor; intros []|].
      intros id Hin [<-|[]]. destruct (Hb _ Hin) as (n & Hn & E).
      apply Hinj in E. lia.
    + intros id Hin. apply in_app_or in Hin. destruct Hin as [Hin|[<-|[]]].
      * destruct (Hb id Hin) as (n & Hn & E). exists n. split; [lia|exact E].
      * exists (tick h). split; [lia|reflexivity].
  - apply idsInv_fresh.
Qed.

Lemma sampleEnv_uuid_inj (a b : nat) :
  randomUUID sampleEnv a = randomUUID sampleEnv b -> a = b.
Proof.
  cbn [randomUUID sampleEnv]. intros H. apply app_inv_head in H.
  apply numberToString_inj in H. lia.
Qed.

Lemma item_ids_are_distinct_witness :
  NoDup (itemIds (host (process sampleEnv freshSystem sampleProcess))).
Proof.
  apply (@item_ids_are_distinct sampleEnv sampleProcess).
  exact sampleEnv_uuid_inj.
Defined.

(** *** The output of a plain run *)

Lemma dispatchAll_idle (env : Env) (evs : list Event) (p : Plain) (h : Host) :
  listening p = false -> timerPending p = false ->
  dispatchAll env p evs h = (p, h).
Proof.
  intros Hl Ht. induction evs as [|ev evs IH]; [reflexivity|].
  cbn [dispatchAll]. unfold bind.
  assert (dispatch env p ev h = (p, h)) as ->.
  { destruct ev; cbn [dispatch]; [rewrite Hl|rewrite Ht]; reflexivity. }
  exact IH.
Qed.

Lemma cleanup_idle (p : Plain) :
  resolved p = false -> timerPending p = false ->
  listening (cleanup p) = false /\ timerPending (cleanup p) = false.
Proof. intros Hr Ht. unfold cleanup. rewrite Hr. cbn. auto. Qed.

Lemma shown_emit (env : Env) (type text : jsstring) (h : Host) :
  shown (emitted (snd (emit env type text h)))
  = shown (emitted h) ++ [(type, text)].
Proof. rewrite emit_eq. unfold shown. cbn. now rewrite map_app. Qed.

Lemma running_output (env : Env) (evs : list Event) :
  forall (p : Plain) (h : Host),
    resolved p = false -> listening p = true -> timerPending p = true ->
    shown (emitted (snd (dispatchAll env p evs h)))
    = shown (emitted h) ++ runItems (execId p) evs.
Proof.
  induction evs as [|ev evs IH]; intros p h Hr Hl Ht.
  { cbn. now rewrite app_nil_r. }
  cbn [dispatchAll runItems]. unfold bind.
  destruct ev as [[m|]|]; cbn [dispatch].
  - rewrite Hl. unfold handleMessage.
    destruct (str_eqb (msgExecId m) (execId p)) eqn:Hid; cbn [negb];
      [|cbn [ret]; now apply IH].
    destruct (payload m) as [method args|message|value| |] eqn:Hpay;
      cbn [itemOf].
    + unfold bind. rewrite emit_eq. cbn [ret fst snd].
      rewrite IH by assumption. unfold shown at 1. cbn [emitted].
      rewrite map_app, <- app_assoc. reflexivity.
    + unfold bind. rewrite emit_eq. cbn [ret fst snd].
      rewrite IH by assumption. unfold shown at 1. cbn [emitted].
      rewrite map_app, <- app_assoc. reflexivity.
    + destruct value; cbn [itemOf app ret]; try (now apply IH);
        unfold bind; rewrite emit_eq; cbn [ret fst snd];
        rewrite IH by assumption; unfold shown at 1; cbn [emitted];
        rewrite map_app, <- app_assoc; reflexivity.
    + cbn [ret].
      destruct (@cleanup_idle (clearTimeout p)) as [Hl' Ht']; [exact Hr|reflexivity|].
      rewrite dispatchAll_idle by assumption. cbn. now rewrite app_nil_r.
    + cbn [ret app]. now apply IH.
  - rewrite Hl. cbn [handleMessage ret]. now apply IH.
  - rewrite Ht. unfold onTimeout, bind. rewrite emit_eq. cbn [ret fst snd].
    destruct (@cleanup_idle (fired p)) as [Hl' Ht']; [exact Hr|reflexivity|].
    rewrite dispatchAll_idle by assumption. unfold shown. cbn [snd emitted].
    now rewrite map_app.
Qed.

(** X8: the output of a plain run, whatever the browser delivers to it.
    From the start of the context on, the items are those of the messages
    that bear the identifier of the run, in the order of their arrival, up
    to the first [done] message or the firing of the timer; the timer adds
    one time-out error; what arrives afterwards leaves no trace. *)
Theorem plain_run_output
    (env : Env) (code : jsstring) (h : Host) (evs : list Event) :
  let start := executePlainCode env code h in
  shown (emitted (snd (dispatchAll env (fst start) evs (snd start))))
  = shown (emitted h) ++ runItems (execId (fst start)) evs.
Proof.
  intros start.
  rewrite (@running_output env evs (fst start) (snd start));
    reflexivity.
Qed.

(** *** The formatting of values *)

Lemma join_app (sep : jsstring) (a b : list jsstring) :
  a <> [] -> b <> [] ->
  join sep (a ++ b) = join sep a ++ sep ++ join sep b.
Proof.
  intros Ha Hb. induction a as [|x a IH]; [congruence|].
  destruct a as [|y a].
  - destruct b as [|z b]; [congruence|]. reflexivity.
  - change (join sep ((x :: y :: a) ++ b))
      with (x ++ sep ++ join sep ((y :: a) ++ b)).
    rewrite IH by discriminate.
    change (join sep (x :: y :: a)) with (x ++ sep ++ join sep (y :: a)).
    now rewrite <- !app_assoc.
Qed.

(** X9: [formatValue] formats each argument without regard to the others:
    the text of two non-empty argument lists put together is the text of
    the first, one space, and the text of the second. *)
Theorem formatValue_app (a b : list Value) :
  a <> [] -> b <> [] ->
  formatValue (a ++ b) = formatValue a ++ js " " ++ formatValue b.
Proof.
  intros Ha Hb. unfold formatValue. rewrite map_app.
  apply join_app; intros E; apply map_eq_nil in E; contradiction.
Qed.

Lemma formatValue_app_witness :
  formatValue ([VString (js "total:"); VOther (js "3")]
                 ++ [VNull; VObject (Some (js "{}")) (js "[object Object]")])
  = js "total: 3 null {}".
Proof.
  rewrite formatValue_app by discriminate. reflexivity.
Defined.

(** *** What the rewriter leaves alone *)

Lemma replaceFrom_copy (r : regex) (f : jsstring -> captures -> jsstring)
    (s : jsstring) :
  forall (pre : jsstring) (prev : option N),
    (forall pv a y b, pre = a ++ y :: b -> exec r pv (y :: b ++ s) = None) ->
    replaceFrom r f prev 0 (pre ++ s)
    = pre ++ replaceFrom r f (after prev pre) 0 s.
Proof.
  induction pre as [|x pre IH]; intros prev Hn; [reflexivity|].
  cbn [app]. rewrite replaceFrom_cons.
  rewrite (Hn prev [] x pre eq_refl). f_equal. apply IH.
  intros pv a y b E. apply (Hn pv (x :: a) y b). now rewrite E.
Qed.

Lemma replaceFrom_nil (r : regex) (f : jsstring -> captures -> jsstring)
    (prev : option N) :
  exec r prev [] = None -> replaceFrom r f prev 0 [] = [].
Proof. intros H. cbn. now rewrite H. Qed.

Lemma matchLit_startsWith (l : jsstring) :
  forall (prev : option N) (s : jsstring),
    startsWith s l = false -> matchLit l prev s = None.
Proof.
  induction l as [|y l IH]; intros prev s H; [now destruct s|].
  destruct s as [|x s]; [reflexivity|]. cbn in *.
  destruct (N.eqb x y); [now apply IH|reflexivity].
Qed.

Lemma exec_needs_import (prev : option N) (s : jsstring) :
  startsWith s (js "import") = false -> exec importPattern prev s = None.
Proof.
  intros H. unfold exec, importPattern. cbn [rmatch].
  now rewrite matchLit_startsWith.
Qed.

Lemma includes_cons (x : N) (s p : jsstring) :
  includes (x :: s) p = (startsWith (x :: s) p || includes s p)%bool.
Proof. reflexivity. Qed.

Lemma includes_suffix (p : jsstring) (a b : jsstring) :
  includes (a ++ b) p = false -> startsWith b p = false.
Proof.
  induction a as [|x a IH]; intros H.
  - destruct b; cbn [app includes] in H;
      now apply orb_false_iff in H as [H _].
  - cbn [app] in H. rewrite includes_cons in H.
    apply orb_false_iff in H as [_ H]. now apply IH.
Qed.

(** X10: a text in which the word [import] does not occur goes through the
    rewriter unchanged. *)
Theorem code_without_import_unchanged (code : jsstring) :
  includes code (js "import") = false -> transformImports code = code.
Proof.
  intros H. unfold transformImports, replaceAll.
  rewrite <- (app_nil_r code) at 1.
  rewrite replaceFrom_copy.
  - rewrite replaceFrom_nil by reflexivity. apply app_nil_r.
  - intros pv a y b E. apply exec_needs_import. rewrite app_nil_r.
    apply (@includes_suffix _ a). now rewrite <- E.
Qed.

Lemma code_without_import_unchanged_witness :
  transformImports (js "const total = [1, 2].map(x => x * 2); // 'from' here")
  = js "const total = [1, 2].map(x => x * 2); // 'from' here".
Proof. apply code_without_import_unchanged. reflexivity. Defined.

Lemma startsWith_app (l s : jsstring) : startsWith (l ++ s) l = true.
Proof.
  induction l as [|y l IH]; [now destruct s|]. cbn. now rewrite N.eqb_refl.
Qed.

Lemma dropWhile_run (p : N -> bool) (w : jsstring) (q : N) (t : jsstring) :
  forallb p w = true -> p q = false -> dropWhile p (w ++ q :: t) = q :: t.
Proof.
  intros Hw Hq. induction w as [|x w IH]; cbn in *; [now rewrite Hq|].
  apply andb_true_iff in Hw as [-> Hw]. now apply IH.
Qed.

Lemma bareFromHere_intro (w : jsstring) (q x : N) (t : jsstring) :
  w <> [] -> forallb isWhiteSpace w = true ->
  isQuote q = true -> bareFirst x = true ->
  bareFromHere (js "from" ++ w ++ q :: x :: t) = true.
Proof.
  intros Hne Hw Hq Hx. unfold bareFromHere.
  rewrite startsWith_app.
  change (skipn 4 (js "from" ++ w ++ q :: x :: t)) with (w ++ q :: x :: t).
  rewrite dropWhile_run by (auto using quote_not_space).
  rewrite Hq, Hx. destruct w as [|c w]; [congruence|].
  cbn [forallb] in Hw. apply andb_true_iff in Hw as [Hc _].
  cbn [app]. rewrite Hc. reflexivity.
Qed.

Lemma hasBareFrom_here (s : jsstring) :
  bareFromHere s = true -> hasBareFrom s = true.
Proof. intros H. destruct s; cbn [hasBareFrom]; now rewrite H. Qed.

Lemma hasBareFrom_app (a b : jsstring) :
  hasBareFrom b = true -> hasBareFrom (a ++ b) = true.
Proof.
  intros H. induction a as [|x a IH]; [exact H|].
  cbn [app hasBareFrom]. rewrite IH. apply orb_true_r.
Qed.

(** Where the pattern matches, the text holds [from], white space and a
    quote in front of a code unit that may begin a bare specifier. *)
Lemma exec_importPattern_sound (prev : option N) (s : jsstring)
    (res : matchResult) :
  exec importPattern prev s = Some res -> hasBareFrom s = true.
Proof.
  unfold exec. change importPattern with
    (Seq (Lit (js "import"))
       (Seq (Plus true isWhiteSpace)
          (Seq (Group 1 (Plus false isDot)) fromClause))).
  intros H.
  apply lit_sound in H as (s1 & -> & H).
  apply plus_sound in H as (w1 & s2 & _ & -> & _ & H).
  cbn [rmatch Plus] in H. unfold Plus in H. cbn [rmatch] in H.
  destruct s2 as [|x s2]; [discriminate|].
  destruct (isDot x); [|discriminate].
  apply star_sound in H as (b & s3 & E & _ & H).
  unfold fromClause in H.
  apply plus_sound in H as (w2 & s4 & _ & -> & _ & H).
  apply lit_sound in H as (s5 & -> & H).
  apply plus_sound in H as (w3 & s6 & Hne & -> & Hw3 & H).
  apply class_sound in H as (q & s7 & -> & Hq & H).
  cbn [rmatch] in H.
  destruct s7 as [|y t]; [discriminate|].
  destruct (bareFirst y) eqn:Hy; [|discriminate].
  rewrite E.
  apply hasBareFrom_app, hasBareFrom_app.
  change (x :: b ++ w2 ++ js "from" ++ w3 ++ q :: y :: t)
    with ((x :: b) ++ w2 ++ js "from" ++ w3 ++ q :: y :: t).
  apply hasBareFrom_app, hasBareFrom_app, hasBareFrom_here.
  now apply bareFromHere_intro.
Qed.

(** X11: what the rewriter never touches.  A text in which no [from] is
    followed by white space and a quoted specifier that begins with
    something else than a quote, a dot or a slash is left as it is:
    relative and absolute imports, imports for their side effects and
    dynamic imports are not rewritten, whatever stands around them. *)
Theorem code_without_bare_from_unchanged (code : jsstring) :
  hasBareFrom code = false -> transformImports code = code.
Proof.
  intros H. unfold transformImports, replaceAll.
  assert (forall pv a b, code = a ++ b -> exec importPattern pv b = None)
    as Hn.
  { intros pv a b E.
    destruct (exec importPattern pv b) as [res|] eqn:Hm; [|reflexivity].
    apply exec_importPattern_sound in Hm.
    apply (hasBareFrom_app a) in Hm. rewrite <- E in Hm. congruence. }
  rewrite <- (app_nil_r code) at 1.
  rewrite replaceFrom_copy.
  - rewrite replaceFrom_nil by (apply (Hn _ code); now rewrite app_nil_r).
    apply app_nil_r.
  - intros pv a y b E. rewrite app_nil_r. now apply (Hn pv a).
Qed.

Lemma code_without_bare_from_unchanged_witness :
  transformImports localImports = localImports.
Proof. apply code_without_bare_from_unchanged. reflexivity. Defined.

(** *** Statements in a longer text *)

Lemma importStatement_then (w1 bindings w2 w3 : jsstring) (q1 first : N)
    (more : jsstring) (q2 : N) (post : jsstring) :
  importStatement w1 bindings w2 w3 q1 first more q2 ++ post
  = js "import" ++ w1 ++ bindings ++ w2 ++ js "from" ++ w3
      ++ q1 :: (first :: more) ++ q2 :: post.
Proof.
  unfold importStatement. rewrite <- !app_assoc. cbn [app].
  rewrite <- !app_assoc. reflexivity.
Qed.

(** The pattern reads a well-shaped import statement up to its closing
    quote, whatever follows. *)
Lemma exec_importStatement_then (w1 bindings w2 w3 : jsstring)
    (q1 first : N) (more : jsstring) (q2 : N) (post : jsstring)
    (prev : option N) :
  spaces w1 = true -> spaces w2 = true -> spaces w3 = true ->
  tidyBindings bindings = true ->
  isQuote q1 = true -> isQuote q2 = true ->
  bareSpecifier first more = true ->
  exec importPattern prev
       (importStatement w1 bindings w2 w3 q1 first more q2 ++ post)
  = Some (post, setCapture 2 (first :: more)
                  (setCapture 1 bindings noCaptures)).
Proof.
  intros H1 H2 H3 Hb Hq1 Hq2 Hspec.
  apply spaces_spec in H1 as [Hw1 Hs1].
  apply spaces_spec in H2 as [Hw2 Hs2].
  apply spaces_spec in H3 as [Hw3 Hs3].
  apply tidyBindings_spec in Hb as (Hb & Hhd & Hlast & Hnq & Hdot).
  unfold bareSpecifier in Hspec.
  apply andb_true_iff in Hspec as [Hfirst Hmore].
  rewrite importStatement_then.
  unfold exec. change importPattern with
    (Seq (Lit (js "import"))
       (Seq (Plus true isWhiteSpace)
          (Seq (Group 1 (Plus false isDot)) fromClause))).
  rewrite rmatch_lit.
  apply rmatch_plus_greedy; [exact Hw1|exact Hs1| |].
  { destruct bindings as [|x b]; [congruence|]. exact Hhd. }
  apply rmatch_group_lazy; [exact Hb|exact Hdot| |].
  { intros pv a y b c' E _.
    destruct (rmatch fromClause (fun _ rest c0 => Some (rest, c0)) pv
                (y :: b ++ w2 ++ js "from" ++ w3
                   ++ q1 :: (first :: more) ++ q2 :: post)
                c') as [res|] eqn:Hm; [|reflexivity].
    exfalso.
    apply fromClause_sound in Hm as (w & w' & q & t & E' & Hw & Hw' & Hq).
    subst bindings.
    exact (@no_from_clause_inside a y b w2 w3 q1 _ w w' q t
             Hlast Hnq Hs2 Hs3 Hq1 Hw Hw' Hq E'). }
  unfold fromClause.
  apply rmatch_plus_greedy; [exact Hw2|exact Hs2|reflexivity|].
  rewrite rmatch_lit.
  apply rmatch_plus_greedy; [exact Hw3|exact Hs3| |].
  { cbn. now apply quote_not_space. }
  rewrite rmatch_class by exact Hq1.
  cbn [rmatch app]. rewrite Hfirst.
  apply star_greedy_run; [exact Hmore| |].
  { cbn. unfold notQuote. now rewrite Hq2. }
  cbn beta. rewrite Hq2.
  change (first :: more ++ q2 :: post) with ((first :: more) ++ q2 :: post).
  now rewrite consumed_app.
Qed.

Lemma replaceFrom_skip (r : regex) (f : jsstring -> captures -> jsstring)
    (post : jsstring) :
  forall (m : jsstring) (prev : option N),
    replaceFrom r f prev (List.length m) (m ++ post)
    = replaceFrom r f (after prev m) 0 post.
Proof.
  induction m as [|y m IH]; intros prev; [reflexivity|].
  cbn [List.length app replaceFrom]. apply IH.
Qed.

(** One match at the head of the text: its replacement, and the search
    goes on behind it. *)
Lemma replaceFrom_match (r : regex) (f : jsstring -> captures -> jsstring)
    (prev : option N) (m post : jsstring) (caps : captures) :
  m <> [] ->
  exec r prev (m ++ post) = Some (post, caps) ->
  replaceFrom r f prev 0 (m ++ post)
  = f m caps ++ replaceFrom r f (after prev m) 0 post.
Proof.
  intros Hne Hexec. destruct m as [|x m]; [congruence|].
  change ((x :: m) ++ post) with (x :: m ++ post) at 1.
  rewrite replaceFrom_cons.
  change (x :: m ++ post) with ((x :: m) ++ post).
  rewrite Hexec, consumed_app, length_app.
  replace (List.length (x :: m) + List.length post - List.length post)
    with (S (List.length m)) by (cbn [List.length]; lia).
  now rewrite replaceFrom_skip.
Qed.

Lemma matchLit_prev (l : jsstring) (pv pv' : option N) (s : jsstring) :
  l <> [] -> matchLit l pv s = matchLit l pv' s.
Proof.
  intros Hne. destruct l as [|y l]; [congruence|].
  destruct s as [|x s]; reflexivity.
Qed.

Lemma exec_importPattern_prev (pv pv' : option N) (s : jsstring) :
  exec importPattern pv s = exec importPattern pv' s.
Proof.
  unfold exec, importPattern. cbn [rmatch].
  now rewrite (@matchLit_prev (js "import") pv pv') by discriminate.
Qed.

Lemma replaceFrom_prev (r : regex) (f : jsstring -> captures -> jsstring) :
  (forall pv pv' s, exec r pv s = exec r pv' s) ->
  forall (s : jsstring) (n : nat) (pv pv' : option N),
    replaceFrom r f pv n s = replaceFrom r f pv' n s.
Proof.
  intros Hex. induction s as [|x s IH]; intros n pv pv'.
  - destruct n; cbn; [now rewrite (Hex pv pv')|reflexivity].
  - destruct n; [|reflexivity].
    rewrite !replaceFrom_cons. now rewrite (Hex pv pv').
Qed.

(** X12: an import statement in a longer text.  A one-line statement with
    tidy bindings and a bare specifier that stands first is replaced by the
    statement that names the module under the remote host -- or kept, when
    its specifier begins with [http] -- and what follows it is rewritten as
    a text of its own. *)
Theorem import_statement_then_rest (w1 bindings w2 w3 : jsstring)
    (q1 first : N) (more : jsstring) (q2 : N) (post : jsstring) :
  spaces w1 = true -> spaces w2 = true -> spaces w3 = true ->
  tidyBindings bindings = true ->
  isQuote q1 = true -> isQuote q2 = true ->
  bareSpecifier first more = true ->
  transformImports
    (importStatement w1 bindings w2 w3 q1 first more q2 ++ post)
  = (if startsWith (first :: more) (js "http")
     then importStatement w1 bindings w2 w3 q1 first more q2
     else rewritten bindings (first :: more))
    ++ transformImports post.
Proof.
  intros H1 H2 H3 Hb Hq1 Hq2 Hspec.
  unfold transformImports, replaceAll.
  rewrite (@replaceFrom_match importPattern rewriteImport None _ post
             (setCapture 2 (first :: more)
                (setCapture 1 bindings noCaptures))).
  - f_equal. apply replaceFrom_prev. exact exec_importPattern_prev.
  - unfold importStatement. discriminate.
  - now apply exec_importStatement_then.
Qed.

Lemma import_statement_then_rest_witness :
  transformImports
    (js "import { useState } from 'react'" ++ [LF]
       ++ js "import x from './x'" ++ [LF] ++ js "useState(0)")
  = js "import { useState } from 'https://esm.sh/react'" ++ [LF]
      ++ js "import x from './x'" ++ [LF] ++ js "useState(0)".
Proof.
  change (js "import { useState } from 'react'")
    with (importStatement (js " ") (js "{ useState }") (js " ") (js " ")
            SQUOTE 114%N (js "eact") SQUOTE).
  rewrite import_statement_then_rest by reflexivity.
  reflexivity.
Defined.

(** X13: the text in front of the first import.  A text inside which the
    word [import] does not begin is copied as it is, and what follows it
    is rewritten as a text of its own. *)
Theorem text_before_import_copied (pre code : jsstring) :
  includes (pre ++ firstn 5 code) (js "import") = false ->
  transformImports (pre ++ code) = pre ++ transformImports code.
Proof.
  intros H. unfold transformImports, replaceAll.
  rewrite replaceFrom_copy.
  - f_equal. apply replaceFrom_prev. exact exec_importPattern_prev.
  - intros pv a y b E. apply exec_needs_import.
    subst pre. rewrite <- app_assoc in H. apply includes_suffix in H.
    cbn [app] in H.
    assert (forall (p s t : jsstring),
               (List.length p <= List.length s + 5)%nat ->
               startsWith (s ++ firstn 5 t) p = false ->
               startsWith (s ++ t) p = false) as Hcut.
    { clear. intros p s. revert p.
      induction s as [|x s IH]; intros p t Hlen Hs.
      - cbn [app] in *. revert p Hlen Hs. generalize 5%nat as n.
        induction t as [|z t IHt]; intros n p Hlen Hs.
        + now rewrite firstn_nil in Hs.
        + destruct n as [|n].
          * destruct p; [discriminate|cbn in Hlen; lia].
          * cbn [firstn] in Hs. destruct p as [|y p]; [discriminate|].
            cbn in *. destruct (N.eqb z y); [|reflexivity].
            cbn in *. apply (IHt n); [lia|exact Hs].
      - destruct p as [|y p]; [discriminate|].
        cbn in *. destruct (N.eqb x y); [|reflexivity].
        cbn in *. apply IH; [lia|exact Hs]. }
    apply (Hcut (js "import") (y :: b) code); [cbn; lia|exact H].
Qed.

Lemma text_before_import_copied_witness :
  transformImports (js "// modules" ++ [LF] ++ js "import React from 'react'")
  = js "// modules" ++ [LF] ++ js "import React from 'https://esm.sh/react'".
Proof.
  change (js "// modules" ++ [LF] ++ js "import React from 'react'")
    with ((js "// modules" ++ [LF]) ++ js "import React from 'react'").
  rewrite text_before_import_copied by reflexivity.
  reflexivity.
Defined.

(** *** Text the renderer has nothing to do with *)

(** A pattern that cannot match where the text does not begin with the
    code unit [d] changes nothing in a text free of it. *)
Lemma replaceFrom_inert (r : regex) (f : jsstring -> captures -> jsstring)
    (d : N) (s : jsstring) (prev : option N) :
  (forall pv, exec r pv [] = None) ->
  (forall pv x t, N.eqb x d = false -> exec r pv (x :: t) = None) ->
  absent d s = true ->
  replaceFrom r f prev 0 s = s.
Proof.
  intros Hnil Hhd Hs.
  rewrite <- (app_nil_r s) at 1. rewrite replaceFrom_copy.
  - rewrite replaceFrom_nil by apply Hnil. apply app_nil_r.
  - intros pv a y b E. apply Hhd.
    unfold absent in Hs. rewrite forallb_forall in Hs.
    apply negb_true_iff, Hs.
    rewrite E. apply in_or_app. right. now left.
Qed.

Lemma class_absent (d : N) (f : jsstring -> captures -> jsstring)
    (s : jsstring) :
  absent d s = true -> replaceAll (Class (isChar d)) f s = s.
Proof.
  intros Hs. apply (@replaceFrom_inert _ _ d); [reflexivity| |exact Hs].
  intros pv x t Hx. unfold exec. cbn. unfold isChar. now rewrite Hx.
Qed.

(** The same for a pattern that begins with a literal, behind an optional
    [^]. *)
Lemma literal_absent (anchored : bool) (d : N) (l : jsstring) (r : regex)
    (f : jsstring -> captures -> jsstring) (s : jsstring) (prev : option N) :
  absent d s = true ->
  replaceFrom (if anchored then Seq Bol (Seq (Lit (d :: l)) r)
               else Seq (Lit (d :: l)) r) f prev 0 s = s.
Proof.
  intros Hs. apply (@replaceFrom_inert _ _ d); [| |exact Hs].
  - intros pv. unfold exec. destruct anchored; cbn [rmatch matchLit];
      [now destruct (atLineStart pv)|reflexivity].
  - intros pv x t Hx. unfold exec. destruct anchored; cbn [rmatch matchLit];
      rewrite Hx; [now destruct (atLineStart pv)|reflexivity].
Qed.

Lemma lit_absent (d : N) (l : jsstring)
    (f : jsstring -> captures -> jsstring) (s : jsstring) :
  absent d s = true -> replaceAll (Lit (d :: l)) f s = s.
Proof.
  intros Hs. apply (@replaceFrom_inert _ _ d); [reflexivity| |exact Hs].
  intros pv x t Hx. unfold exec. cbn. now rewrite Hx.
Qed.

Lemma heading_absent (marks : jsstring)
    (f : jsstring -> captures -> jsstring) (s : jsstring) :
  startsWith marks (js "#") = true -> absent 35 s = true ->
  replaceAll (pattern_heading marks) f s = s.
Proof.
  intros Hm Hs. destruct marks as [|d l]; [discriminate|].
  cbn in Hm. apply andb_true_iff in Hm as [Hd _].
  apply N.eqb_eq in Hd as ->.
  now apply (@literal_absent true 35%N l).
Qed.

Lemma emphasis_absent (stars : jsstring)
    (f : jsstring -> captures -> jsstring) (s : jsstring) :
  startsWith stars (js "*") = true -> absent 42 s = true ->
  replaceAll (pattern_emphasis stars) f s = s.
Proof.
  intros Hm Hs. destruct stars as [|d l]; [discriminate|].
  cbn in Hm. apply andb_true_iff in Hm as [Hd _].
  apply N.eqb_eq in Hd as ->.
  now apply (@literal_absent false 42%N l).
Qed.

(** The five passes behind the emphasis: fenced code, inline code, links,
    paragraphs and line breaks. *)
Lemma late_passes_absent (s : jsstring) :
  absent 96 s = true -> absent 91 s = true -> absent LF s = true ->
  replaceAll pattern_break (substitute [Text (js "<br>")])
    (replaceAll pattern_paragraph (substitute [Text (js "</p><p>")])
    (replaceAll pattern_link
       (substitute [Text (js "<a href=" ++ [DQUOTE]); Ref 2;
                    Text ([DQUOTE] ++ js ">"); Ref 1; Text (js "</a>")])
    (replaceAll pattern_code
       (substitute (tagged (js "<code>") (js "</code>")))
    (replaceAll pattern_fence
       (substitute [Text (js "<pre><code>"); Ref 2;
                    Text (js "</code></pre>")]) s))))
  = s.
Proof.
  intros Hb Hl Hn.
  assert (forall f, replaceAll pattern_fence f s = s) as ->.
  { intros f. now apply (@literal_absent false 96%N (js "``")). }
  assert (forall f, replaceAll pattern_code f s = s) as ->.
  { intros f. now apply (@literal_absent false 96%N []). }
  assert (forall f, replaceAll pattern_link f s = s) as ->.
  { intros f. now apply (@literal_absent false 91%N []). }
  assert (forall f, replaceAll pattern_paragraph f s = s) as ->.
  { intros f. now apply (@lit_absent LF [LF]). }
  now apply (@lit_absent LF []).
Qed.

Lemma escape_passes_absent (s : jsstring) :
  absent 38 s = true -> absent 60 s = true -> absent 62 s = true ->
  replaceAll pattern_gt (substitute [Text (js "&gt;")])
    (replaceAll pattern_lt (substitute [Text (js "&lt;")])
       (replaceAll pattern_amp (substitute [Text (js "&amp;")]) s))
  = s.
Proof.
  intros Ha Hl Hg. unfold pattern_amp, pattern_lt, pattern_gt.
  rewrite (@class_absent 38%N) by exact Ha.
  rewrite (@class_absent 60%N) by exact Hl.
  now apply class_absent.
Qed.

Lemma plainChar_absent (d : N) (s : jsstring) :
  In d markupChars -> forallb plainChar s = true -> absent d s = true.
Proof.
  intros Hd Hs. unfold absent. rewrite forallb_forall in *. intros x Hx.
  specialize (Hs x Hx). unfold plainChar in Hs.
  apply negb_true_iff in Hs. apply negb_true_iff.
  destruct (N.eqb_spec x d) as [->|]; [|reflexivity].
  assert (existsb (N.eqb d) markupChars = true) as E.
  { apply existsb_exists. exists d. split; [exact Hd|apply N.eqb_refl]. }
  congruence.
Qed.

Ltac markup_char := unfold markupChars, LF; cbn; tauto.

(** X14: text without markup is rendered as it is.  A text that holds none
    of the code units the renderer gives a meaning to -- the ampersand, the
    angle brackets, the hash, the star, the backtick, the opening square
    bracket and the line feed -- comes back unchanged between the
    paragraph tags. *)
Theorem markdown_plain_text (text : jsstring) :
  forallb plainChar text = true ->
  markdownToHtml text = js "<p>" ++ text ++ js "</p>".
Proof.
  intros H. unfold markdownToHtml. cbv zeta.
  rewrite escape_passes_absent
    by (apply plainChar_absent; [markup_char|exact H]).
  rewrite (@heading_absent (js "### "))
    by (reflexivity || (apply plainChar_absent; [markup_char|exact H])).
  rewrite (@heading_absent (js "## "))
    by (reflexivity || (apply plainChar_absent; [markup_char|exact H])).
  rewrite (@heading_absent (js "# "))
    by (reflexivity || (apply plainChar_absent; [markup_char|exact H])).
  rewrite (@emphasis_absent (js "***"))
    by (reflexivity || (apply plainChar_absent; [markup_char|exact H])).
  rewrite (@emphasis_absent (js "**"))
    by (reflexivity || (apply plainChar_absent; [markup_char|exact H])).
  rewrite (@emphasis_absent (js "*"))
    by (reflexivity || (apply plainChar_absent; [markup_char|exact H])).
  rewrite late_passes_absent
    by (apply plainChar_absent; [markup_char|exact H]).
  reflexivity.
Qed.

Lemma markdown_plain_text_witness :
  markdownToHtml (js "Total: 3 items (see notes).")
  = js "<p>Total: 3 items (see notes).</p>".
Proof. apply markdown_plain_text. reflexivity. Defined.

(** *** Line feeds *)

Lemma replaceFrom_ext (r1 r2 : regex) (f : jsstring -> captures -> jsstring) :
  (forall pv s, exec r1 pv s = exec r2 pv s) ->
  forall (s : jsstring) (n : nat) (pv : option N),
    replaceFrom r1 f pv n s = replaceFrom r2 f pv n s.
Proof.
  intros Hex. induction s as [|x s IH]; intros n pv.
  - destruct n; cbn; [now rewrite Hex|reflexivity].
  - destruct n; [|cbn [replaceFrom]; apply IH].
    rewrite !replaceFrom_cons, Hex.
    destruct (exec r2 pv (x :: s)) as [[rest caps]|]; [|now rewrite IH].
    destruct (List.length (x :: s) - List.length rest); now rewrite IH.
Qed.

Lemma exec_lit_one (d : N) (pv : option N) (s : jsstring) :
  exec (Lit [d]) pv s = exec (Class (isChar d)) pv s.
Proof.
  unfold exec, isChar. cbn. destruct s as [|x s]; [reflexivity|].
  now destruct (N.eqb x d).
Qed.

Lemma replaceAll_char (d : N) (t s : jsstring) :
  replaceAll (Lit [d]) (substitute [Text t]) s
  = flat_map (fun c => if N.eqb c d then t else [c]) s.
Proof.
  unfold replaceAll.
  rewrite (@replaceFrom_ext (Lit [d]) (Class (isChar d)))
    by apply exec_lit_one.
  apply (@replaceAll_class (isChar d)).
Qed.

(** X15: the rendered markup holds no line feed.  Whatever the text, every
    line feed the earlier substitutions left has become a paragraph
    boundary or a [<br>], inside fenced code as anywhere else. *)
Theorem markdown_has_no_line_feed (text : jsstring) :
  ~ In LF (markdownToHtml text).
Proof.
  unfold markdownToHtml. cbv zeta. unfold pattern_break at 1.
  rewrite replaceAll_char. intros H.
  apply in_app_or in H as [H|H].
  { cbn in H. unfold LF in H. intuition discriminate. }
  apply in_app_or in H as [H|H].
  - apply in_flat_map in H as (c & _ & H).
    destruct (N.eqb c LF) eqn:Hc.
    + cbn in H. unfold LF in H. intuition discriminate.
    + destruct H as [H|[]]. subst c. now rewrite N.eqb_refl in Hc.
  - cbn in H. unfold LF in H. intuition discriminate.
Qed.

(** *** Headings and emphasis *)

Lemma absent_app (d : N) (a b : jsstring) :
  absent d (a ++ b) = (absent d a && absent d b)%bool.
Proof. apply forallb_app. Qed.

Lemma absent_repeat (d c : N) (n : nat) :
  N.eqb c d = false -> absent d (repeat c n) = true.
Proof.
  intros H. induction n as [|n IH]; [reflexivity|].
  cbn [repeat]. unfold absent in *. cbn [forallb]. now rewrite H, IH.
Qed.

Lemma inline_dots (t : jsstring) :
  forallb inlineChar t = true -> forallb isDot t = true.
Proof.
  intros H. rewrite forallb_forall in *. intros x Hx.
  specialize (H x Hx). unfold inlineChar in H.
  now apply andb_true_iff in H as [H _].
Qed.

Lemma inline_absent (d : N) (t : jsstring) :
  forallb inlineChar t = true ->
  existsb (N.eqb d) [38; 60; 62; 42; 96; 91; 10]%N = true ->
  absent d t = true.
Proof.
  intros H Hd. unfold absent. rewrite forallb_forall in *. intros x Hx.
  specialize (H x Hx). unfold inlineChar in H.
  apply andb_true_iff in H as [Hdot Hno].
  apply negb_true_iff. destruct (N.eqb_spec x d) as [->|]; [|reflexivity].
  cbn [existsb] in Hd. apply orb_true_iff in Hd as [Hd|Hd].
  - apply negb_true_iff in Hno. cbn [existsb] in Hno. now rewrite Hd in Hno.
  - apply orb_true_iff in Hd as [Hd|Hd];
      [apply negb_true_iff in Hno; cbn [existsb] in Hno;
       rewrite Hd in Hno; rewrite ?orb_true_r in Hno; discriminate|].
    apply orb_true_iff in Hd as [Hd|Hd];
      [apply negb_true_iff in Hno; cbn [existsb] in Hno;
       rewrite Hd in Hno; rewrite ?orb_true_r in Hno; discriminate|].
    apply orb_true_iff in Hd as [Hd|Hd];
      [apply negb_true_iff in Hno; cbn [existsb] in Hno;
       rewrite Hd in Hno; rewrite ?orb_true_r in Hno; discriminate|].
    apply orb_true_iff in Hd as [Hd|Hd];
      [apply negb_true_iff in Hno; cbn [existsb] in Hno;
       rewrite Hd in Hno; rewrite ?orb_true_r in Hno; discriminate|].
    apply orb_true_iff in Hd as [Hd|Hd];
      [apply negb_true_iff in Hno; cbn [existsb] in Hno;
       rewrite Hd in Hno; rewrite ?orb_true_r in Hno; discriminate|].
    apply orb_true_iff in Hd as [Hd|Hd]; [|discriminate].
    apply N.eqb_eq in Hd. subst d. discriminate.
Qed.

(** A heading pattern matches at the start of a line only. *)
Lemma heading_inside (marks : jsstring)
    (f : jsstring -> captures -> jsstring) :
  forall (s : jsstring) (c : N),
    isLineTerminator c = false -> forallb isDot s = true ->
    replaceFrom (pattern_heading marks) f (Some c) 0 s = s.
Proof.
  assert (forall c s, isLineTerminator c = false ->
                      exec (pattern_heading marks) (Some c) s = None) as Hno.
  { intros c s Hc. unfold exec, pattern_heading. cbn [rmatch atLineStart].
    now rewrite Hc. }
  induction s as [|x s IH]; intros c Hc Hs.
  - apply replaceFrom_nil. now apply Hno.
  - rewrite replaceFrom_cons, Hno by exact Hc.
    cbn [forallb] in Hs. apply andb_true_iff in Hs as [Hx Hs].
    f_equal. apply IH; [|exact Hs]. now apply negb_true_iff.
Qed.

Lemma heading_miss (marks : jsstring)
    (f : jsstring -> captures -> jsstring) (s : jsstring) :
  exec (pattern_heading marks) None s = None ->
  forallb isDot s = true ->
  replaceAll (pattern_heading marks) f s = s.
Proof.
  intros Hex Hs. unfold replaceAll. destruct s as [|x s].
  - now apply replaceFrom_nil.
  - rewrite replaceFrom_cons, Hex.
    cbn [forallb] in Hs. apply andb_true_iff in Hs as [Hx Hs].
    f_equal. apply heading_inside; [|exact Hs]. now apply negb_true_iff.
Qed.

Lemma heading_whole (marks open close title : jsstring) :
  marks <> [] -> forallb isDot title = true ->
  replaceAll (pattern_heading marks) (substitute (tagged open close))
             (marks ++ title)
  = open ++ title ++ close.
Proof.
  intros Hne Hdot.
  rewrite (@replaceAll_whole _ _ _ (setCapture 1 title noCaptures)).
  - cbn. now rewrite app_nil_r.
  - destruct marks; [congruence|discriminate].
  - intros prev. unfold exec, pattern_heading. cbn [rmatch].
    destruct marks; [congruence|]. now destruct (atLineStart prev).
  - unfold exec, pattern_heading. cbn [rmatch atLineStart].
    rewrite matchLit_app. cbn [rmatch].
    rewrite <- (app_nil_r title) at 1.
    apply star_greedy_run; [exact Hdot|exact I|].
    cbn [atLineEnd]. pose proof (consumed_app title []) as E.
    rewrite app_nil_r in E. now rewrite E.
Qed.

Ltac dots H := rewrite ?forallb_app, (inline_dots _ H); reflexivity.
Ltac gone H :=
  rewrite ?absent_app, (@inline_absent _ _ H) by reflexivity; reflexivity.

(** X16: a heading.  A line that begins with one, two or three hashes and a
    space, followed by a title without inline markup, is rendered as the
    heading element of that level around the title, inside the paragraph
    tags. *)
Theorem markdown_heading (level : nat) (title : jsstring) :
  (1 <= level <= 3)%nat -> forallb inlineChar title = true ->
  markdownToHtml (headingMarks level ++ title)
  = js "<p><" ++ headingTag level ++ js ">" ++ title
      ++ js "</" ++ headingTag level ++ js "></p>".
Proof.
  intros Hlevel H.
  assert (level = 1 \/ level = 2 \/ level = 3)%nat as Hcases by lia.
  destruct Hcases as [->|[->| ->]].
  - change (headingMarks 1) with (js "# ").
    unfold markdownToHtml. cbv zeta.
    rewrite escape_passes_absent by gone H.
    rewrite (@heading_miss (js "### ")) by (reflexivity || dots H).
    rewrite (@heading_miss (js "## ")) by (reflexivity || dots H).
    rewrite heading_whole by (discriminate || exact (inline_dots _ H)).
    rewrite (@emphasis_absent (js "***")) by (reflexivity || gone H).
    rewrite (@emphasis_absent (js "**")) by (reflexivity || gone H).
    rewrite (@emphasis_absent (js "*")) by (reflexivity || gone H).
    rewrite late_passes_absent by gone H.
    rewrite <- ?app_assoc. reflexivity.
  - change (headingMarks 2) with (js "## ").
    unfold markdownToHtml. cbv zeta.
    rewrite escape_passes_absent by gone H.
    rewrite (@heading_miss (js "### ")) by (reflexivity || dots H).
    rewrite heading_whole by (discriminate || exact (inline_dots _ H)).
    rewrite (@heading_miss (js "# ")) by (reflexivity || dots H).
    rewrite (@emphasis_absent (js "***")) by (reflexivity || gone H).
    rewrite (@emphasis_absent (js "**")) by (reflexivity || gone H).
    rewrite (@emphasis_absent (js "*")) by (reflexivity || gone H).
    rewrite late_passes_absent by gone H.
    rewrite <- ?app_assoc. reflexivity.
  - change (headingMarks 3) with (js "### ").
    unfold markdownToHtml. cbv zeta.
    rewrite escape_passes_absent by gone H.
    rewrite heading_whole by (discriminate || exact (inline_dots _ H)).
    rewrite (@heading_miss (js "## ")) by (reflexivity || dots H).
    rewrite (@heading_miss (js "# ")) by (reflexivity || dots H).
    rewrite (@emphasis_absent (js "***")) by (reflexivity || gone H).
    rewrite (@emphasis_absent (js "**")) by (reflexivity || gone H).
    rewrite (@emphasis_absent (js "*")) by (reflexivity || gone H).
    rewrite late_passes_absent by gone H.
    rewrite <- ?app_assoc. reflexivity.
Qed.

Lemma markdown_heading_witness :
  markdownToHtml (js "## Release notes, part #2")
  = js "<p><h2>Release notes, part #2</h2></p>".
Proof.
  apply (@markdown_heading 2 (js "Release notes, part #2")); [lia|reflexivity].
Defined.

Lemma dots_repeat_hash (n : nat) : forallb isDot (repeat 35%N n) = true.
Proof. induction n as [|n IH]; [reflexivity|]. cbn [repeat forallb].
  now rewrite IH. Qed.

(** X17: four hashes or more do not make a heading.  A line that begins
    with at least four hashes and a space, followed by a title without
    inline markup, comes back as it is between the paragraph tags. *)
Theorem markdown_deep_heading_is_text (level : nat) (title : jsstring) :
  (4 <= level)%nat -> forallb inlineChar title = true ->
  markdownToHtml (headingMarks level ++ title)
  = js "<p>" ++ headingMarks level ++ title ++ js "</p>".
Proof.
  intros Hlevel H.
  destruct level as [|[|[|[|n]]]]; try lia.
  unfold headingMarks.
  assert (forall d, N.eqb 35 d = false -> N.eqb 32 d = false ->
                    existsb (N.eqb d) [38; 60; 62; 42; 96; 91; 10]%N = true ->
                    absent d ((repeat 35%N (4 + n) ++ js " ") ++ title) = true)
    as Habs.
  { intros d H35 H32 Hd. rewrite !absent_app.
    rewrite (@absent_repeat d 35%N _ H35), (@inline_absent d title H Hd).
    change (js " ") with [32%N]. unfold absent. cbn [forallb].
    now rewrite H32. }
  assert (forallb isDot ((repeat 35%N (4 + n) ++ js " ") ++ title) = true)
    as Hdots.
  { rewrite !forallb_app, dots_repeat_hash, (inline_dots _ H). reflexivity. }
  change (S (S (S (S n)))) with (4 + n)%nat.
  unfold markdownToHtml. cbv zeta.
  rewrite escape_passes_absent by (apply Habs; reflexivity).
  rewrite (@heading_miss (js "### ")) by (reflexivity || exact Hdots).
  rewrite (@heading_miss (js "## ")) by (reflexivity || exact Hdots).
  rewrite (@heading_miss (js "# ")) by (reflexivity || exact Hdots).
  rewrite (@emphasis_absent (js "***"))
    by (reflexivity || (apply Habs; reflexivity)).
  rewrite (@emphasis_absent (js "**"))
    by (reflexivity || (apply Habs; reflexivity)).
  rewrite (@emphasis_absent (js "*"))
    by (reflexivity || (apply Habs; reflexivity)).
  rewrite late_passes_absent by (apply Habs; reflexivity).
  rewrite <- ?app_assoc. reflexivity.
Qed.

Lemma markdown_deep_heading_is_text_witness :
  markdownToHtml (js "#### Details")
  = js "<p>#### Details</p>".
Proof.
  apply (@markdown_deep_heading_is_text 4 (js "Details")); [lia|reflexivity].
Defined.

(** *** Emphasis *)

Lemma occurrences_app (d : N) (a b : jsstring) :
  occurrences d (a ++ b) = (occurrences d a + occurrences d b)%nat.
Proof. unfold occurrences. now rewrite filter_app, length_app. Qed.

Lemma occurrences_all (d : N) (l : jsstring) :
  forallb (N.eqb d) l = true -> occurrences d l = List.length l.
Proof.
  intros H. unfold occurrences. induction l as [|x l IH]; [reflexivity|].
  cbn [forallb] in H. apply andb_true_iff in H as [Hx Hl].
  cbn [filter]. rewrite Hx. cbn [List.length]. now rewrite IH.
Qed.

Lemma occurrences_absent (d : N) (s : jsstring) :
  absent d s = true -> occurrences d s = 0%nat.
Proof.
  intros H. unfold occurrences, absent in *.
  induction s as [|c s IH]; [reflexivity|].
  cbn [forallb] in H. apply andb_true_iff in H as [Hc Hs].
  apply negb_true_iff in Hc. cbn [filter].
  rewrite N.eqb_sym, Hc. now apply IH.
Qed.

(** Where an emphasis pattern matches, the text holds its marks twice. *)
Lemma emphasis_sound (stars : jsstring) (pv : option N) (s : jsstring)
    (res : matchResult) :
  exec (pattern_emphasis stars) pv s = Some res ->
  exists w rest, s = stars ++ w ++ stars ++ rest.
Proof.
  unfold exec, pattern_emphasis. intros H.
  apply lit_sound in H as (s1 & -> & H).
  cbn [rmatch] in H.
  apply star_sound in H as (w & s2 & -> & _ & H).
  destruct (matchLit stars (after (after pv stars) w) s2)
    as [[pv' s3]|] eqn:E; [|discriminate].
  apply matchLit_sound in E as [-> _]. now exists w, s3.
Qed.

(** An emphasis pattern has nothing to match in a text that holds fewer
    stars than its two marks take. *)
Lemma emphasis_few (stars : jsstring)
    (f : jsstring -> captures -> jsstring) (s : jsstring) :
  stars <> [] -> forallb (N.eqb 42) stars = true ->
  (occurrences 42 s < 2 * List.length stars)%nat ->
  replaceAll (pattern_emphasis stars) f s = s.
Proof.
  intros Hne Hstars Hfew. unfold replaceAll.
  assert (forall pv a b, s = a ++ b ->
                         exec (pattern_emphasis stars) pv b = None) as Hn.
  { intros pv a b E.
    destruct (exec (pattern_emphasis stars) pv b) as [res|] eqn:Hm;
      [|reflexivity].
    apply emphasis_sound in Hm as (w & rest & ->). subst s.
    rewrite !occurrences_app, (occurrences_all _ _ Hstars) in Hfew. lia. }
  rewrite <- (app_nil_r s) at 1. rewrite replaceFrom_copy.
  - rewrite replaceFrom_nil by (apply (Hn _ s); now rewrite app_nil_r).
    apply app_nil_r.
  - intros pv a y b E. rewrite app_nil_r. now apply (Hn pv a).
Qed.

Lemma emphasis_whole (stars open close x : jsstring) :
  stars <> [] -> forallb (N.eqb 42) stars = true ->
  forallb isDot x = true -> absent 42 x = true ->
  replaceAll (pattern_emphasis stars) (substitute (tagged open close))
             (stars ++ x ++ stars)
  = open ++ x ++ close.
Proof.
  intros Hne Hstars Hdot Hx.
  rewrite (@replaceAll_whole _ _ _ (setCapture 1 x noCaptures)).
  - cbn. now rewrite app_nil_r.
  - destruct stars; [congruence|discriminate].
  - intros prev. unfold exec, pattern_emphasis. cbn [rmatch].
    destruct stars; [congruence|reflexivity].
  - unfold exec, pattern_emphasis. rewrite rmatch_lit. cbn [rmatch].
    apply star_lazy_run; [exact Hdot| |].
    + intros pv a y b E. cbn beta.
      destruct stars as [|d l]; [congruence|].
      cbn [forallb] in Hstars. apply andb_true_iff in Hstars as [Hd _].
      apply N.eqb_eq in Hd. subst d.
      assert (N.eqb y 42 = false) as Hy.
      { unfold absent in Hx. rewrite forallb_forall in Hx.
        apply negb_true_iff, Hx. rewrite E. apply in_or_app. right. now left. }
      cbn [matchLit]. now rewrite Hy.
    + assert (forall pv, matchLit stars pv stars = Some (after pv stars, []))
        as E.
      { intros pv. pose proof (matchLit_app stars pv []) as E.
        now rewrite app_nil_r in E. }
      cbn [rmatch]. now rewrite E, consumed_app.
Qed.

(** X18: emphasis.  A text without inline markup between one, two or three
    stars on either side is rendered as the emphasis, the strong or the
    strong emphasis element around it, inside the paragraph tags. *)
Theorem markdown_emphasis (x : jsstring) :
  forallb inlineChar x = true ->
  markdownToHtml (js "*" ++ x ++ js "*") = js "<p><em>" ++ x ++ js "</em></p>"
  /\ markdownToHtml (js "**" ++ x ++ js "**")
     = js "<p><strong>" ++ x ++ js "</strong></p>"
  /\ markdownToHtml (js "***" ++ x ++ js "***")
     = js "<p><strong><em>" ++ x ++ js "</em></strong></p>".
Proof.
  intros H.
  pose proof (inline_dots _ H) as Hdots.
  assert (absent 42 x = true) as Hx by (now apply inline_absent).
  pose proof (occurrences_absent _ _ Hx) as Hcount.
  split; [|split]; unfold markdownToHtml; cbv zeta.
  - rewrite escape_passes_absent by gone H.
    rewrite (@heading_miss (js "### ")) by (reflexivity || dots H).
    rewrite (@heading_miss (js "## ")) by (reflexivity || dots H).
    rewrite (@heading_miss (js "# ")) by (reflexivity || dots H).
    rewrite (@emphasis_few (js "***"))
      by (discriminate || reflexivity
          || (rewrite !occurrences_app, Hcount; cbn; lia)).
    rewrite (@emphasis_few (js "**"))
      by (discriminate || reflexivity
          || (rewrite !occurrences_app, Hcount; cbn; lia)).
    rewrite emphasis_whole by (discriminate || reflexivity || assumption).
    rewrite late_passes_absent by gone H.
    rewrite <- ?app_assoc. reflexivity.
  - rewrite escape_passes_absent by gone H.
    rewrite (@heading_miss (js "### ")) by (reflexivity || dots H).
    rewrite (@heading_miss (js "## ")) by (reflexivity || dots H).
    rewrite (@heading_miss (js "# ")) by (reflexivity || dots H).
    rewrite (@emphasis_few (js "***"))
      by (discriminate || reflexivity
          || (rewrite !occurrences_app, Hcount; cbn; lia)).
    rewrite emphasis_whole by (discriminate || reflexivity || assumption).
    rewrite (@emphasis_absent (js "*")) by (reflexivity || gone H).
    rewrite late_passes_absent by gone H.
    rewrite <- ?app_assoc. reflexivity.
  - rewrite escape_passes_absent by gone H.
    rewrite (@heading_miss (js "### ")) by (reflexivity || dots H).
    rewrite (@heading_miss (js "## ")) by (reflexivity || dots H).
    rewrite (@heading_miss (js "# ")) by (reflexivity || dots H).
    rewrite emphasis_whole by (discriminate || reflexivity || assumption).
    rewrite (@emphasis_absent (js "**")) by (reflexivity || gone H).
    rewrite (@emphasis_absent (js "*")) by (reflexivity || gone H).
    rewrite late_passes_absent by gone H.
    rewrite <- ?app_assoc. reflexivity.
Qed.

Lemma markdown_emphasis_witness :
  markdownToHtml (js "**not yet done**")
  = js "<p><strong>not yet done</strong></p>".
Proof.
  exact (proj1 (proj2 (@markdown_emphasis (js "not yet done") eq_refl))).
Defined.

(** *** Links, code spans and fenced code *)

Lemma rmatch_group_greedy (i : nat) (p : N -> bool) (r : regex) (k : cont)
    (prev : option N) (w rest : jsstring) (c : captures) (res : matchResult) :
  w <> [] -> forallb p w = true -> stopsAt p rest ->
  rmatch r k (after prev w) rest (setCapture i w c) = Some res ->
  rmatch (Seq (Group i (Plus true p)) r) k prev (w ++ rest) c = Some res.
Proof.
  intros Hne Hw Hstop Hk. destruct w as [|x w]; [congruence|].
  cbn [forallb] in Hw. apply andb_true_iff in Hw as [Hx Hw].
  unfold Plus. cbn [rmatch]. cbn [app]. rewrite Hx.
  apply star_greedy_run; [exact Hw|exact Hstop|].
  change (x :: w ++ rest) with ((x :: w) ++ rest).
  rewrite consumed_app. exact Hk.
Qed.

(** A lazy run in a group, up to the literal that follows it. *)
Lemma rmatch_group_until (i : nat) (p : N -> bool) (d : N) (l : jsstring)
    (k : cont) (prev : option N) (w : jsstring) (c : captures)
    (res : matchResult) :
  forallb p w = true -> absent d w = true ->
  k (after (after prev w) (d :: l)) [] (setCapture i w c) = Some res ->
  rmatch (Seq (Group i (Star false p)) (Lit (d :: l))) k prev
         (w ++ d :: l) c = Some res.
Proof.
  intros Hw Hd Hk. cbn [rmatch].
  apply star_lazy_run; [exact Hw| |].
  - intros pv a y b E. cbn beta.
    assert (N.eqb y d = false) as Hy.
    { unfold absent in Hd. rewrite forallb_forall in Hd.
      apply negb_true_iff, Hd. rewrite E. apply in_or_app. right. now left. }
    cbn [matchLit]. now rewrite Hy.
  - assert (forall pv, matchLit (d :: l) pv (d :: l)
                       = Some (after pv (d :: l), [])) as E.
    { intros pv. pose proof (matchLit_app (d :: l) pv []) as E.
      now rewrite app_nil_r in E. }
    cbn beta. rewrite E, consumed_app. exact Hk.
Qed.

Lemma link_whole (t u : jsstring) :
  t <> [] -> u <> [] -> absent 93 t = true -> absent 41 u = true ->
  replaceAll pattern_link
    (substitute [Text (js "<a href=" ++ [DQUOTE]); Ref 2;
                 Text ([DQUOTE] ++ js ">"); Ref 1; Text (js "</a>")])
    (js "[" ++ t ++ js "](" ++ u ++ js ")")
  = js "<a href=" ++ [DQUOTE] ++ u ++ [DQUOTE] ++ js ">" ++ t ++ js "</a>".
Proof.
  intros Ht Hu Hat Hau.
  rewrite (@replaceAll_whole _ _ _
             (setCapture 2 u (setCapture 1 t noCaptures))).
  - cbn [substitute flat_map group setCapture Nat.eqb].
    rewrite <- ?app_assoc. now rewrite app_nil_r.
  - discriminate.
  - intros prev. reflexivity.
  - unfold exec, pattern_link. rewrite rmatch_lit.
    apply rmatch_group_greedy; [exact Ht|exact Hat|reflexivity|].
    rewrite rmatch_lit.
    apply rmatch_group_greedy; [exact Hu|exact Hau|reflexivity|].
    reflexivity.
Qed.

(** X19: a link.  A bracketed text without inline markup followed by a
    target in parentheses is rendered as an anchor around the text, inside
    the paragraph tags; the target goes into the [href] attribute exactly
    as it is written, quotes included. *)
Theorem markdown_link (t u : jsstring) :
  t <> [] -> u <> [] ->
  forallb inlineChar t = true -> forallb inlineChar u = true ->
  absent 93 t = true -> absent 41 u = true ->
  markdownToHtml (js "[" ++ t ++ js "](" ++ u ++ js ")")
  = js "<p><a href=" ++ [DQUOTE] ++ u ++ [DQUOTE] ++ js ">" ++ t
      ++ js "</a></p>".
Proof.
  intros Hnt Hnu Ht Hu Hat Hau.
  assert (forall d a b c,
             existsb (N.eqb d) [38; 60; 62; 42; 96; 91; 10]%N = true ->
             absent d a = true -> absent d b = true -> absent d c = true ->
             absent d (a ++ t ++ b ++ u ++ c) = true) as Habs.
  { intros d a b c Hd Ha Hb Hc. rewrite !absent_app.
    now rewrite Ha, Hb, Hc, (@inline_absent d t Ht Hd),
      (@inline_absent d u Hu Hd). }
  assert (forallb isDot (js "[" ++ t ++ js "](" ++ u ++ js ")") = true)
    as Hdots.
  { rewrite !forallb_app, (inline_dots _ Ht), (inline_dots _ Hu).
    reflexivity. }
  unfold markdownToHtml. cbv zeta.
  rewrite escape_passes_absent by (apply Habs; reflexivity).
  rewrite (@heading_miss (js "### ")) by (reflexivity || exact Hdots).
  rewrite (@heading_miss (js "## ")) by (reflexivity || exact Hdots).
  rewrite (@heading_miss (js "# ")) by (reflexivity || exact Hdots).
  rewrite (@emphasis_absent (js "***"))
    by (reflexivity || (apply Habs; reflexivity)).
  rewrite (@emphasis_absent (js "**"))
    by (reflexivity || (apply Habs; reflexivity)).
  rewrite (@emphasis_absent (js "*"))
    by (reflexivity || (apply Habs; reflexivity)).
  match goal with
  | |- context [replaceAll pattern_fence ?f ?s] =>
      replace (replaceAll pattern_fence f s) with s
        by (symmetry; apply (@literal_absent false 96%N (js "``"));
            apply Habs; reflexivity)
  end.
  match goal with
  | |- context [replaceAll pattern_code ?f ?s] =>
      replace (replaceAll pattern_code f s) with s
        by (symmetry; apply (@literal_absent false 96%N []);
            apply Habs; reflexivity)
  end.
  rewrite link_whole by assumption.
  assert (absent LF (js "<a href=" ++ [DQUOTE] ++ u ++ [DQUOTE] ++ js ">"
                       ++ t ++ js "</a>") = true) as Hlf.
  { rewrite !absent_app.
    now rewrite (@inline_absent LF t Ht eq_refl),
      (@inline_absent LF u Hu eq_refl). }
  rewrite (@lit_absent LF [LF]) by exact Hlf.
  rewrite (@lit_absent LF []) by exact Hlf.
  rewrite <- ?app_assoc. reflexivity.
Qed.

Lemma markdown_link_witness :
  markdownToHtml
    (js "[docs](https://example.org/?q=" ++ [DQUOTE] ++ js " x=" ++ [DQUOTE]
       ++ js ")")
  = js "<p><a href=" ++ [DQUOTE] ++ js "https://example.org/?q="
      ++ [DQUOTE] ++ js " x=" ++ [DQUOTE] ++ [DQUOTE] ++ js ">docs</a></p>".
Proof.
  exact (@markdown_link (js "docs")
           (js "https://example.org/?q=" ++ [DQUOTE] ++ js " x=" ++ [DQUOTE])
           ltac:(discriminate) ltac:(discriminate)
           eq_refl eq_refl eq_refl eq_refl).
Defined.

Lemma fence_few (f : jsstring -> captures -> jsstring) (s : jsstring) :
  (occurrences 96 s < 3)%nat -> replaceAll pattern_fence f s = s.
Proof.
  intros Hfew. unfold replaceAll.
  assert (forall pv a b, s = a ++ b -> exec pattern_fence pv b = None) as Hn.
  { intros pv a b E.
    destruct (exec pattern_fence pv b) as [res|] eqn:Hm; [|reflexivity].
    unfold exec, pattern_fence in Hm.
    apply lit_sound in Hm as (s1 & -> & _). subst s.
    rewrite !occurrences_app in Hfew.
    change (occurrences 96 (js "```")) with 3%nat in Hfew. lia. }
  rewrite <- (app_nil_r s) at 1. rewrite replaceFrom_copy.
  - rewrite replaceFrom_nil by (apply (Hn _ s); now rewrite app_nil_r).
    apply app_nil_r.
  - intros pv a y b E. rewrite app_nil_r. now apply (Hn pv a).
Qed.

Lemma code_whole (x : jsstring) :
  x <> [] -> absent 96 x = true ->
  replaceAll pattern_code (substitute (tagged (js "<code>") (js "</code>")))
             (js "`" ++ x ++ js "`")
  = js "<code>" ++ x ++ js "</code>".
Proof.
  intros Hne Hx.
  rewrite (@replaceAll_whole _ _ _ (setCapture 1 x noCaptures)).
  - cbn. rewrite ?app_nil_r. reflexivity.
  - discriminate.
  - intros prev. reflexivity.
  - unfold exec, pattern_code. rewrite rmatch_lit.
    apply rmatch_group_greedy; [exact Hne|exact Hx|reflexivity|].
    reflexivity.
Qed.

(** X20: a code span.  A text without inline markup between two backticks
    is rendered as the code element around it, inside the paragraph
    tags. *)
Theorem markdown_code_span (x : jsstring) :
  x <> [] -> forallb inlineChar x = true ->
  markdownToHtml (js "`" ++ x ++ js "`")
  = js "<p><code>" ++ x ++ js "</code></p>".
Proof.
  intros Hne H.
  assert (absent 96 x = true) as Hx by (now apply inline_absent).
  unfold markdownToHtml. cbv zeta.
  rewrite escape_passes_absent by gone H.
  rewrite (@heading_miss (js "### ")) by (reflexivity || dots H).
  rewrite (@heading_miss (js "## ")) by (reflexivity || dots H).
  rewrite (@heading_miss (js "# ")) by (reflexivity || dots H).
  rewrite (@emphasis_absent (js "***")) by (reflexivity || gone H).
  rewrite (@emphasis_absent (js "**")) by (reflexivity || gone H).
  rewrite (@emphasis_absent (js "*")) by (reflexivity || gone H).
  rewrite fence_few
    by (rewrite !occurrences_app, (occurrences_absent _ _ Hx); cbn; lia).
  rewrite code_whole by assumption.
  match goal with
  | |- context [replaceAll pattern_link ?f ?s] =>
      replace (replaceAll pattern_link f s) with s
        by (symmetry; apply (@literal_absent false 91%N []); gone H)
  end.
  rewrite (@lit_absent LF [LF]) by gone H.
  rewrite (@lit_absent LF []) by gone H.
  rewrite <- ?app_assoc. reflexivity.
Qed.

Lemma markdown_code_span_witness :
  markdownToHtml (js "`npm run build`")
  = js "<p><code>npm run build</code></p>".
Proof.
  apply (@markdown_code_span (js "npm run build"));
    [discriminate|reflexivity].
Defined.

Lemma rmatch_opt_skip (i : nat) (g : bool) (p : N -> bool) (r : regex)
    (k : cont) (prev : option N) (x : N) (s : jsstring) (c : captures) :
  p x = false ->
  rmatch (Seq (Opt (Group i (Plus g p))) r) k prev (x :: s) c
  = rmatch r k prev (x :: s) c.
Proof. intros Hx. unfold Plus. cbn [rmatch]. now rewrite Hx. Qed.

Lemma rmatch_opt_take (i : nat) (p : N -> bool) (r : regex) (k : cont)
    (prev : option N) (w rest : jsstring) (c : captures) (res : matchResult) :
  w <> [] -> forallb p w = true -> stopsAt p rest ->
  rmatch r k (after prev w) rest (setCapture i w c) = Some res ->
  rmatch (Seq (Opt (Group i (Plus true p))) r) k prev (w ++ rest) c
  = Some res.
Proof.
  intros Hne Hw Hstop Hk.
  pose proof (@rmatch_group_greedy i p r k prev w rest c res
                Hne Hw Hstop Hk) as H.
  cbn [rmatch] in *. now rewrite H.
Qed.

Lemma word_absent (d : N) (lang : jsstring) :
  isWordChar d = false -> forallb isWordChar lang = true ->
  absent d lang = true.
Proof.
  intros Hd H. unfold absent. rewrite forallb_forall in *. intros x Hx.
  apply negb_true_iff. destruct (N.eqb_spec x d) as [->|]; [|reflexivity].
  specialize (H d Hx). congruence.
Qed.

Lemma fence_whole (lang body : jsstring) :
  forallb isWordChar lang = true -> absent 96 body = true ->
  replaceAll pattern_fence
    (substitute [Text (js "<pre><code>"); Ref 2; Text (js "</code></pre>")])
    (js "```" ++ lang ++ [LF] ++ body ++ js "```")
  = js "<pre><code>" ++ body ++ js "</code></pre>".
Proof.
  intros Hlang Hbody.
  assert (forall c,
             rmatch (Seq (Lit [LF])
                       (Seq (Group 2 (Star false anyChar)) (Lit (js "```"))))
               (fun _ rest c0 => Some (rest, c0)) (after (Some 96%N) lang)
               ([LF] ++ body ++ js "```") c
             = Some ([], setCapture 2 body c)) as Hrest.
  { intros c. rewrite rmatch_lit.
    apply (@rmatch_group_until 2 anyChar 96%N (js "``"));
      [now apply forallb_forall|exact Hbody|reflexivity]. }
  destruct lang as [|l0 lang].
  - rewrite (@replaceAll_whole _ _ _ (setCapture 2 body noCaptures)).
    + cbn. rewrite ?app_nil_r. reflexivity.
    + discriminate.
    + intros prev. reflexivity.
    + unfold exec, pattern_fence. rewrite rmatch_lit.
      cbn [app]. rewrite rmatch_opt_skip by reflexivity.
      apply Hrest.
  - rewrite (@replaceAll_whole _ _ _
               (setCapture 2 body (setCapture 1 (l0 :: lang) noCaptures))).
    + cbn. rewrite ?app_nil_r. reflexivity.
    + discriminate.
    + intros prev. reflexivity.
    + unfold exec, pattern_fence. rewrite rmatch_lit.
      apply rmatch_opt_take; [discriminate|exact Hlang|reflexivity|].
      apply Hrest.
Qed.

(** X21: fenced code.  Three backticks, a language word or none, a line
    feed, a body without markup and three backticks are rendered as the
    preformatted code element around the body, inside the paragraph tags;
    the language word is dropped. *)
Theorem markdown_fenced_code (lang body : jsstring) :
  forallb isWordChar lang = true -> forallb plainChar body = true ->
  markdownToHtml (js "```" ++ lang ++ [LF] ++ body ++ js "```")
  = js "<p><pre><code>" ++ body ++ js "</code></pre></p>".
Proof.
  intros Hlang Hbody.
  assert (forall d, In d markupChars -> absent d body = true) as Hb.
  { intros d Hd. now apply plainChar_absent. }
  assert (forall d, isWordChar d = false -> In d markupChars ->
                    N.eqb 96 d = false -> N.eqb LF d = false ->
                    absent d (js "```" ++ lang ++ [LF] ++ body ++ js "```")
                    = true) as Habs.
  { intros d Hw Hd H96 Hlf. rewrite !absent_app.
    rewrite (@word_absent d lang Hw Hlang), (Hb d Hd).
    unfold absent. change (js "```") with [96; 96; 96]%N.
    cbn [forallb]. now rewrite H96, Hlf. }
  unfold markdownToHtml. cbv zeta.
  rewrite escape_passes_absent by (apply Habs; (reflexivity || markup_char)).
  rewrite (@heading_absent (js "### "))
    by (reflexivity || (apply Habs; (reflexivity || markup_char))).
  rewrite (@heading_absent (js "## "))
    by (reflexivity || (apply Habs; (reflexivity || markup_char))).
  rewrite (@heading_absent (js "# "))
    by (reflexivity || (apply Habs; (reflexivity || markup_char))).
  rewrite (@emphasis_absent (js "***"))
    by (reflexivity || (apply Habs; (reflexivity || markup_char))).
  rewrite (@emphasis_absent (js "**"))
    by (reflexivity || (apply Habs; (reflexivity || markup_char))).
  rewrite (@emphasis_absent (js "*"))
    by (reflexivity || (apply Habs; (reflexivity || markup_char))).
  rewrite fence_whole by (exact Hlang || (apply Hb; markup_char)).
  assert (forall d, In d markupChars ->
                    absent d (js "<pre><code>") = true ->
                    absent d (js "</code></pre>") = true ->
                    absent d (js "<pre><code>" ++ body ++ js "</code></pre>")
                    = true) as Hout.
  { intros d Hd H1 H2. rewrite !absent_app. now rewrite H1, H2, (Hb d Hd). }
  match goal with
  | |- context [replaceAll pattern_code ?f ?s] =>
      replace (replaceAll pattern_code f s) with s
        by (symmetry; apply (@literal_absent false 96%N []);
            apply Hout; (reflexivity || markup_char))
  end.
  match goal with
  | |- context [replaceAll pattern_link ?f ?s] =>
      replace (replaceAll pattern_link f s) with s
        by (symmetry; apply (@literal_absent false 91%N []);
            apply Hout; (reflexivity || markup_char))
  end.
  rewrite (@lit_absent LF [LF]) by (apply Hout; (reflexivity || markup_char)).
  rewrite (@lit_absent LF []) by (apply Hout; (reflexivity || markup_char)).
  rewrite <- ?app_assoc. reflexivity.
Qed.

Lemma markdown_fenced_code_witness :
  markdownToHtml (js "```ts" ++ [LF] ++ js "const n: number = 1" ++ js "```")
  = js "<p><pre><code>const n: number = 1</code></pre></p>".
Proof.
  apply (@markdown_fenced_code (js "ts") (js "const n: number = 1"));
    reflexivity.
Defined.

(** ** The rewriter on whole programs *)



















